(** * Trafeek admin dashboard: list derivation, session holder, mutations

    A shallow embedding of the logic of the dashboard's pages
    ([Reports], [Users], [RiderReports]), of [ReportDetailModal] and of
    [AuthContext], followed by the properties the specification states
    about them.

    Conventions.
    - A JavaScript string is a [string]; [toLowerCase] folds the ASCII
      letters (the code units outside ASCII are left as they are).
    - A JavaScript number that the code computes with is an integer of
      [Z], or [NaN]; an absent property ([undefined]) is [None].
    - A field that the code reads through [?.], [&&] or [|| 0] is
      optional in the records below, whatever the TypeScript interface
      declares: the values come from [res.data], which is untyped. *)

From Stdlib Require Import String Ascii List ZArith Lia Bool.
From Stdlib Require Import Sorted Permutation.
From Stdlib Require Import Relations.
Import ListNotations.
Open Scope string_scope.
Open Scope list_scope.
Open Scope Z_scope.

(* ================================================================== *)
(** ** JavaScript values, strings and numbers *)

(** The values the filter predicate computes with. *)
Inductive value : Type :=
| VUndefined
| VBool (b : bool)
| VString (s : string).

(** ToBoolean. *)
Definition truthy (v : value) : bool :=
  match v with
  | VUndefined => false
  | VBool b => b
  | VString s => negb (s =? "")%string
  end.

(** [a || b], [a && b] and [!a]; the operands below are pure, so that
    evaluating the right operand eagerly changes nothing. *)
Definition or_ (a b : value) : value := if truthy a then a else b.
Definition and_ (a b : value) : value := if truthy a then b else a.
Definition not_ (a : value) : value := VBool (negb (truthy a)).

Definition lower_ascii (c : ascii) : ascii :=
  let n := N_of_ascii c in
  if ((65 <=? n) && (n <=? 90))%N then ascii_of_N (n + 32) else c.

(** [s.toLowerCase()] *)
Fixpoint toLowerCase (s : string) : string :=
  match s with
  | EmptyString => EmptyString
  | String c s' => String (lower_ascii c) (toLowerCase s')
  end.

(** [s.startsWith(p)] *)
Fixpoint startsWith (s p : string) : bool :=
  match p, s with
  | EmptyString, _ => true
  | String _ _, EmptyString => false
  | String a p', String b s' => Ascii.eqb a b && startsWith s' p'
  end.

(** [s.includes(p)] *)
Fixpoint includes (s p : string) : bool :=
  startsWith s p
  || match s with
     | EmptyString => false
     | String _ s' => includes s' p
     end.

(** The result of an arithmetic expression. *)
Inductive number : Type :=
| Num (z : Z)
| NaN.

(** [x - y] where either operand may be [undefined]. *)
Definition minus (x y : option Z) : number :=
  match x, y with
  | Some a, Some b => Num (a - b)
  | _, _ => NaN
  end.

(** [x || 0] for a number or [undefined]. *)
Definition orZero (x : option Z) : Z :=
  match x with
  | Some z => z
  | None => 0
  end.

(** [confirm === "DELETE"]: strict equality of a [string | null] with a
    string literal. *)
Definition strictEq (v : option string) (lit : string) : bool :=
  match v with
  | Some s => (s =? lit)%string
  | None => false
  end.

(** The white space of ASCII: TAB, LF, VT, FF, CR and the space. *)
Definition isWhiteSpace (c : ascii) : bool :=
  let n := N_of_ascii c in
  (((9 <=? n) && (n <=? 13)) || (n =? 32))%N.

(** [s.trimStart()] *)
Fixpoint trimStart (s : string) : string :=
  match s with
  | EmptyString => EmptyString
  | String c s' => if isWhiteSpace c then trimStart s' else s
  end.

(** [s.trimEnd()] *)
Fixpoint trimEnd (s : string) : string :=
  match s with
  | EmptyString => EmptyString
  | String c s' =>
      match trimEnd s' with
      | EmptyString => if isWhiteSpace c then EmptyString else String c EmptyString
      | t => String c t
      end
  end.

(** [s.trim()] *)
Definition trim (s : string) : string := trimEnd (trimStart s).

(** [if (v) params[key] = v]: the contribution of one optional filter to
    the query string. *)
Definition param (key v : string) : list (string * string) :=
  if (v =? "")%string then [] else [(key, v)].

(** The double nearest to an integer, ties to even: the integers up to
    2^53 in magnitude are doubles themselves; beyond, one in 2^e is,
    where e grows with the magnitude.  (From 2^1024 on the engine yields
    [Infinity]; no statement below reaches there.) *)
Definition roundDouble (z : Z) : Z :=
  let m := Z.abs z in
  if m <=? 2 ^ 53 then z
  else
    let e := Z.log2 m - 52 in
    let q := m / 2 ^ e in
    let r := m mod 2 ^ e in
    let half := 2 ^ (e - 1) in
    let q' :=
      if r <? half then q
      else if half <? r then q + 1
      else if Z.even q then q else q + 1 in
    Z.sgn z * (q' * 2 ^ e).

(** [x + y] on two integer-valued numbers. *)
Definition plusDouble (x y : Z) : Z := roundDouble (x + y).

(* ------------------------------------------------------------------ *)
(** *** [Array.prototype.sort]

    The sort is stable (ECMAScript 2019).  For a consistent comparator
    every stable sort returns the same array, so that an insertion sort
    stands for the host's algorithm.  [SortCompare] is the standard's: a
    [NaN] from the comparator counts as [+0]. *)

Section ArraySort.
Context {A : Type}.
Variable comparefn : A -> A -> number.

Definition SortCompare (x y : A) : Z :=
  match comparefn x y with
  | Num v => v
  | NaN => 0
  end.

(** [x] stood before every element of [l] in the source array. *)
Fixpoint insert (x : A) (l : list A) : list A :=
  match l with
  | [] => [x]
  | y :: l' =>
      if SortCompare x y <=? 0 then x :: y :: l' else y :: insert x l'
  end.

Definition sort (l : list A) : list A := fold_right insert [] l.
End ArraySort.

(* ================================================================== *)
(** ** The platform: HTTP outcomes, notifications, storage *)

(** What the handlers read of a failed request:
    [error.response?.data?.message]. *)
Record AxiosError : Type := {
  response_message : option string
}.

(** How an awaited request settles. *)
Inductive Settled (A : Type) : Type :=
| Fulfilled (a : A)
| Rejected (e : AxiosError).
Arguments Fulfilled {A} a.
Arguments Rejected {A} e.

(** A call on the API client. *)
Inductive Request : Type :=
| DELETE (url : string)
| POST (url : string) (body : list (string * string)).

(** [toast.success(msg)] and [toast.error(msg)] *)
Inductive Toast : Type :=
| toast_success (msg : string)
| toast_error (msg : string).

(** What an event handler does besides updating state. *)
Inductive Effect : Type :=
| Issue (r : Request)
| Show (t : Toast).

(** [error.response?.data?.message || fallback] *)
Definition messageOr (error : AxiosError) (fallback : string) : string :=
  match response_message error with
  | Some m => if (m =? "")%string then fallback else m
  | None => fallback
  end.

(** [window.localStorage] *)
Definition Storage : Type := string -> option string.

Definition getItem (key : string) (s : Storage) : option string := s key.

Definition setItem (key v : string) (s : Storage) : Storage :=
  fun k => if (k =? key)%string then Some v else s k.

Definition removeItem (key : string) (s : Storage) : Storage :=
  fun k => if (k =? key)%string then None else s k.

(* ================================================================== *)
(** ** Reports *)

Record Comment : Type := {
  comment_id : option string;
  comment_userId : string;
  text : string;
  comment_createdAt : string
}.

Record Reporter : Type := {
  reporter_id : string;
  email : option string;
  name : option string
}.

(** [interface Report]; the coordinates are floating point and no code
    below reads them. *)
Record Report : Type := {
  _id : string;
  type : string;
  description : option string;
  locationName : option string;
  photoUrl : option string;
  userId : option Reporter;
  upvotes : option Z;
  comments : option (list Comment);
  createdAt : string
}.

(** [report.userId?.email] *)
Definition reporterEmail (report : Report) : option string :=
  match userId report with
  | Some u => email u
  | None => None
  end.

(** [r.comments?.length || 0] *)
Definition commentCount (r : Report) : Z :=
  match comments r with
  | Some cs => Z.of_nat (length cs)
  | None => 0
  end.

(** [interface User] *)
Record User : Type := {
  user_id : string;
  user_email : string;
  user_name : option string;
  user_role : string;
  isSuspended : bool;
  suspensionReason : option string;
  user_createdAt : string
}.

(* ------------------------------------------------------------------ *)
(** *** Arrays as objects

    An array is an object in a store and a variable holds a reference to
    it: [filter] and the spread [[...a]] allocate a new array, [sort]
    works in place on its receiver and returns it. *)

Definition Store : Type := list (list Report).

Definition deref (h : Store) (p : nat) : list Report := nth p h [].

Definition alloc (a : list Report) (h : Store) : nat * Store :=
  (length h, h ++ [a]).

Fixpoint assign (p : nat) (a : list Report) (h : Store) : Store :=
  match h, p with
  | [], _ => []
  | _ :: h', O => a :: h'
  | x :: h', S p' => x :: assign p' a h'
  end.

Definition Array_filter (callback : Report -> value) (p : nat) (h : Store)
  : nat * Store :=
  alloc (filter (fun r => truthy (callback r)) (deref h p)) h.

Definition Array_spread (p : nat) (h : Store) : nat * Store :=
  alloc (deref h p) h.

Definition Array_sort (comparefn : Report -> Report -> number)
           (p : nat) (h : Store) : nat * Store :=
  (p, assign p (sort comparefn (deref h p)) h).

(* ------------------------------------------------------------------ *)
(** *** The query cache and the state of the views *)

Inductive Payload : Type :=
| ReportsPayload (reports : list Report)
| UsersPayload (users : list User).

Record Query : Type := {
  queryKey : list string;
  data : Payload;
  isInvalidated : bool
}.

Fixpoint isPrefix (p k : list string) : bool :=
  match p, k with
  | [], _ => true
  | _ :: _, [] => false
  | a :: p', b :: k' => (a =? b)%string && isPrefix p' k'
  end.

(** What the views hold: the shared query cache, the draft comment of
    the modal and the report the modal shows. *)
Record Ui : Type := {
  queries : list Query;
  newComment : string;
  selectedReport : option Report
}.

(** [queryClient.invalidateQueries({ queryKey })]: every query whose key
    starts with [key] is marked stale (and refetched when observed). *)
Definition invalidateQueries (key : list string) (ui : Ui) : Ui :=
  {| queries :=
       map (fun q =>
              if isPrefix key (queryKey q)
              then {| queryKey := queryKey q; data := data q;
                      isInvalidated := true |}
              else q)
           (queries ui);
     newComment := newComment ui;
     selectedReport := selectedReport ui |}.

Definition setNewComment (s : string) (ui : Ui) : Ui :=
  {| queries := queries ui; newComment := s;
     selectedReport := selectedReport ui |}.

Definition setSelectedReport (r : option Report) (ui : Ui) : Ui :=
  {| queries := queries ui; newComment := newComment ui;
     selectedReport := r |}.

(** The options object of [useMutation]. *)
Record Mutation (V : Type) : Type := {
  mutationFn : V -> Request;
  onSuccess : Ui -> Ui * list Toast;
  onError : AxiosError -> Ui -> Ui * list Toast
}.
Arguments mutationFn {V} m v.
Arguments onSuccess {V} m ui.
Arguments onError {V} m error ui.

(** [mutation.mutate(v)] issues the request ... *)
Definition mutate {V : Type} (m : Mutation V) (v : V) : list Effect :=
  [Issue (mutationFn m v)].

(** ... and one callback runs when the request settles. *)
Definition settle {V : Type} (m : Mutation V) (outcome : Settled unit)
           (ui : Ui) : Ui * list Toast :=
  match outcome with
  | Fulfilled _ => onSuccess m ui
  | Rejected error => onError m error ui
  end.

(** [onError: (error) => toast.error(error.response?.data?.message || fallback)] *)
Definition toastError (fallback : string) (error : AxiosError) (ui : Ui)
  : Ui * list Toast :=
  (ui, [toast_error (messageOr error fallback)]).

(* ------------------------------------------------------------------ *)
(** *** Category badges *)

Record TypeConfig : Type := {
  label : string;
  color : string
}.

(** What [table[key]] evaluates to for an object literal [table]: an own
    property, a property inherited from [Object.prototype] (a function or
    an object, with no [label] and no [color]), or [undefined]. *)
Inductive Property : Type :=
| Own (c : TypeConfig)
| Inherited
| Undefined.

Definition ObjectPrototype : list string :=
  ["constructor"; "__defineGetter__"; "__defineSetter__"; "hasOwnProperty";
   "__lookupGetter__"; "__lookupSetter__"; "isPrototypeOf";
   "propertyIsEnumerable"; "toString"; "valueOf"; "__proto__";
   "toLocaleString"].

Fixpoint ownProperty (table : list (string * TypeConfig)) (key : string)
  : option TypeConfig :=
  match table with
  | [] => None
  | (k, c) :: table' =>
      if (k =? key)%string then Some c else ownProperty table' key
  end.

Definition getProperty (table : list (string * TypeConfig)) (key : string)
  : Property :=
  match ownProperty table key with
  | Some c => Own c
  | None =>
      if existsb (String.eqb key) ObjectPrototype then Inherited
      else Undefined
  end.

(** [<Badge className={typeConfig.color}>{typeConfig.label}</Badge>]:
    reading a property of [undefined] throws. *)
Inductive Badge : Type :=
| BadgeElement (className children : option string)
| TypeError.

Definition renderBadge (typeConfig : Property) : Badge :=
  match typeConfig with
  | Own c => BadgeElement (Some (color c)) (Some (label c))
  | Inherited => BadgeElement None None
  | Undefined => TypeError
  end.

(** The five categories of the data model. *)
Definition categories : list string :=
  ["heavy-traffic"; "accident"; "construction"; "flood"; "checkpoint"].

(** The reports page.  Its two versions in the repository compute the
    rendered list by the same code; the second location filter is there
    called [countrySearch]. *)
Module Reports.

(** [field && field.toLowerCase().includes(search.toLowerCase())] *)
Definition fieldIncludes (field : option string) (search : string) : value :=
  match field with
  | None => VUndefined
  | Some f =>
      and_ (VString f)
           (VBool (includes (toLowerCase f) (toLowerCase search)))
  end.

Definition matchesSearch (search : string) (report : Report) : value :=
  or_ (or_ match description report with
           | None => VUndefined
           | Some d => VBool (includes (toLowerCase d) (toLowerCase search))
           end
           (fieldIncludes (locationName report) search))
      (fieldIncludes (reporterEmail report) search).

Definition matchesLocation (locationSearch : string) (report : Report)
  : value :=
  or_ (not_ (VString locationSearch))
      (fieldIncludes (locationName report) locationSearch).

(** The callback of [reports.filter(...)]. *)
Definition keeps (search locationSearch : string) (report : Report)
  : value :=
  and_ (matchesSearch search report) (matchesLocation locationSearch report).

Definition scoreOf (a : Report) : Z := orZero (upvotes a) + commentCount a.

(** The three comparators, as [(a, b) => ...]. *)
Definition byEngagement (a b : Report) : number :=
  Num (scoreOf b - scoreOf a).
Definition byUpvotes (a b : Report) : number :=
  minus (upvotes b) (upvotes a).
Definition byComments (a b : Report) : number :=
  Num (commentCount b - commentCount a).

(** The filter step: [reports.filter(...)]. *)
Definition filterStep (search locationSearch : string)
           (reports : list Report) : list Report :=
  filter (fun r => truthy (keeps search locationSearch r)) reports.

(** The sort step: [[...filteredReports].sort(...)] under the selector. *)
Definition sortStep (engagementFilter : string) (filtered : list Report)
  : list Report :=
  if (engagementFilter =? "high-engagement")%string then
    sort byEngagement filtered
  else if (engagementFilter =? "most-upvoted")%string then
    sort byUpvotes filtered
  else if (engagementFilter =? "most-commented")%string then
    sort byComments filtered
  else filtered.

(** The list the table renders. *)
Definition filteredReports (search locationSearch engagementFilter : string)
           (reports : list Report) : list Report :=
  sortStep engagementFilter (filterStep search locationSearch reports).

(** The same derivation on the store: [reports] refers to the array
    the query cache holds; the result refers to the array rendered. *)
Definition render (search locationSearch engagementFilter : string)
           (reports : nat) (h : Store) : nat * Store :=
  let (filtered, h1) :=
    Array_filter (keeps search locationSearch) reports h in
  if (engagementFilter =? "high-engagement")%string then
    let (copy, h2) := Array_spread filtered h1 in
    Array_sort byEngagement copy h2
  else if (engagementFilter =? "most-upvoted")%string then
    let (copy, h2) := Array_spread filtered h1 in
    Array_sort byUpvotes copy h2
  else if (engagementFilter =? "most-commented")%string then
    let (copy, h2) := Array_spread filtered h1 in
    Array_sort byComments copy h2
  else (filtered, h1).

Definition reportTypes : list (string * TypeConfig) :=
  [("heavy-traffic",
    {| label := "Heavy Traffic"; color := "bg-purple-100 text-purple-700" |});
   ("accident",
    {| label := "Accident"; color := "bg-red-100 text-red-700" |});
   ("construction",
    {| label := "Construction"; color := "bg-orange-100 text-orange-700" |});
   ("flood",
    {| label := "Flooded Road"; color := "bg-blue-100 text-blue-700" |});
   ("checkpoint",
    {| label := "Police Checkpoint"; color := "bg-gray-100 text-gray-700" |})].

(** [reportTypes[report.type as keyof typeof reportTypes]] *)
Definition typeConfig (report : Report) : Property :=
  getProperty reportTypes (type report).

Definition deleteMutation : Mutation string := {|
  mutationFn := fun reportId => DELETE ("/admin/reports/" ++ reportId)%string;
  onSuccess := fun ui =>
    (invalidateQueries ["admin-reports"] ui,
     [toast_success "Report deleted successfully"]);
  onError := toastError "Failed to delete report"
|}.

(** [confirm] is what [prompt(...)] returned: the text typed, or [null]. *)
Definition handleDelete (confirm : option string)
           (reportId description : string) : list Effect :=
  if strictEq confirm "DELETE" then mutate deleteMutation reportId else [].

(** The list query: [queryKey: ["admin-reports", typeFilter]] and
    [if (typeFilter !== "all") params.type = typeFilter]. *)
Definition queryKey (typeFilter : string) : list string :=
  ["admin-reports"; typeFilter].

Definition queryParams (typeFilter : string) : list (string * string) :=
  if (typeFilter =? "all")%string then [] else [("type", typeFilter)].

(** In the second version of the page the location filter starts from
    the address in the URL: [useState(emailFromUrl || "")]. *)
Definition initialCountrySearch (emailFromUrl : option string) : string :=
  match emailFromUrl with
  | Some e => e
  | None => ""
  end.

End Reports.

Module RiderReports.

(** The table of [Reports], literally. *)
Definition reportTypes : list (string * TypeConfig) := Reports.reportTypes.

Definition typeConfig (report : Report) : Property :=
  getProperty reportTypes (type report).

Definition deleteMutation : Mutation string := {|
  mutationFn := fun reportId => DELETE ("/admin/reports/" ++ reportId)%string;
  onSuccess := fun ui =>
    (invalidateQueries ["rider-reports"] ui,
     [toast_success "Report deleted successfully"]);
  onError := toastError "Failed to delete report"
|}.

Definition handleDelete (confirm : option string)
           (reportId description : string) : list Effect :=
  if strictEq confirm "DELETE" then mutate deleteMutation reportId else [].

Definition queryKey (riderEmail : string) : list string :=
  ["rider-reports"; riderEmail].

(** [report.userId?.email?.toLowerCase() === riderEmail.toLowerCase()] *)
Definition ofRider (riderEmail : string) (report : Report) : bool :=
  match reporterEmail report with
  | Some e => (toLowerCase e =? toLowerCase riderEmail)%string
  | None => false
  end.

Definition riderReports (riderEmail : string) (reports : list Report)
  : list Report :=
  filter (ofRider riderEmail) reports.

(** [riderReports.reduce((sum, r) => sum + (r.upvotes || 0), 0)] *)
Definition totalUpvotes (rows : list Report) : Z :=
  fold_left (fun sum r => plusDouble sum (orZero (upvotes r))) rows 0.

(** [riderReports.reduce((sum, r) => sum + (r.comments?.length || 0), 0)] *)
Definition totalComments (rows : list Report) : Z :=
  fold_left (fun sum r => plusDouble sum (commentCount r)) rows 0.

(** The placeholder the page shows for a missing name: an em dash. *)
Definition dash : string := "—".

(** [riderReports.length > 0 ? riderReports[0].userId?.name || dash : dash] *)
Definition riderName (rows : list Report) : string :=
  match rows with
  | r :: _ =>
      match userId r with
      | Some u =>
          match name u with
          | Some n => if (n =? "")%string then dash else n
          | None => dash
          end
      | None => dash
      end
  | [] => dash
  end.

(** What the page shows: the notice when the URL names no rider,
    otherwise the name, the three totals and the rows. *)
Inductive View : Type :=
| NoRiderSelected
| RiderView (shownName : string) (totalReports upvoteTotal commentTotal : Z)
            (rows : list Report).

(** [riderEmail] is [searchParams.get("email")], [reportsData] the data
    of the query, if any: [reportsData?.reports || []]. *)
Definition page (riderEmail : option string)
           (reportsData : option (list Report)) : View :=
  match riderEmail with
  | None => NoRiderSelected
  | Some e =>
      if (e =? "")%string then NoRiderSelected
      else
        let reports := match reportsData with Some l => l | None => [] end in
        let rows := riderReports e reports in
        RiderView (riderName rows) (Z.of_nat (List.length rows))
                  (totalUpvotes rows) (totalComments rows) rows
  end.

End RiderReports.

Module Users.

Definition suspendMutation : Mutation (string * string) := {|
  mutationFn := fun '(userId, reason) =>
    POST ("/admin/users/" ++ userId ++ "/suspend")%string
         [("reason", reason)];
  onSuccess := fun ui =>
    (invalidateQueries ["users"] ui,
     [toast_success "User suspended successfully"]);
  onError := toastError "Failed to suspend user"
|}.

Definition unsuspendMutation : Mutation string := {|
  mutationFn := fun userId =>
    POST ("/admin/users/" ++ userId ++ "/unsuspend")%string [];
  onSuccess := fun ui =>
    (invalidateQueries ["users"] ui,
     [toast_success "User unsuspended successfully"]);
  onError := toastError "Failed to unsuspend user"
|}.

Definition deleteMutation : Mutation string := {|
  mutationFn := fun userId => DELETE ("/admin/users/" ++ userId)%string;
  onSuccess := fun ui =>
    (invalidateQueries ["users"] ui,
     [toast_success "User deleted successfully"]);
  onError := toastError "Failed to delete user"
|}.

(** [if (reason)]: neither [null] nor the empty string. *)
Definition handleSuspend (reason : option string) (userId email : string)
  : list Effect :=
  match reason with
  | Some r =>
      if (r =? "")%string then [] else mutate suspendMutation (userId, r)
  | None => []
  end.

Definition handleUnsuspend (confirmed : bool) (userId : string)
  : list Effect :=
  if confirmed then mutate unsuspendMutation userId else [].

Definition handleDelete (confirm : option string) (userId email : string)
  : list Effect :=
  if strictEq confirm "DELETE" then mutate deleteMutation userId else [].

(** The list query: [queryKey: ["users", search, roleFilter]], with
    [if (search) params.search = search] and
    [if (roleFilter !== "all") params.role = roleFilter]. *)
Definition queryKey (search roleFilter : string) : list string :=
  ["users"; search; roleFilter].

Definition queryParams (search roleFilter : string) : list (string * string) :=
  param "search" search
  ++ (if (roleFilter =? "all")%string then [] else [("role", roleFilter)]).

End Users.

Module ReportDetailModal.

Definition reportTypes : list (string * TypeConfig) :=
  [("heavy-traffic",
    {| label := "Heavy Traffic"; color := "bg-purple-600 text-white" |});
   ("accident",
    {| label := "Accident"; color := "bg-red-600 text-white" |});
   ("construction",
    {| label := "Construction"; color := "bg-orange-500 text-white" |});
   ("flood",
    {| label := "Flooded Road"; color := "bg-blue-500 text-white" |});
   ("checkpoint",
    {| label := "Police Checkpoint"; color := "bg-black text-white" |})].

Definition typeConfig (report : Report) : Property :=
  getProperty reportTypes (type report).

Definition addCommentMutation (report : Report) : Mutation string := {|
  mutationFn := fun text =>
    POST ("/reports/" ++ _id report ++ "/comment")%string [("text", text)];
  onSuccess := fun ui =>
    (setNewComment "" (invalidateQueries ["admin-reports"] ui),
     [toast_success "Comment added successfully"]);
  onError := toastError "Failed to add comment"
|}.

Definition deleteCommentMutation (report : Report) : Mutation string := {|
  mutationFn := fun commentId =>
    DELETE ("/admin/reports/" ++ _id report ++ "/comments/" ++ commentId)%string;
  onSuccess := fun ui =>
    (invalidateQueries ["report-detail"; _id report]
       (invalidateQueries ["admin-reports"] ui),
     [toast_success "Comment deleted successfully"]);
  onError := toastError "Failed to delete comment"
|}.

(** [onClose] is [() => setSelectedReport(null)] at both call sites. *)
Definition deleteReportMutation (report : Report) : Mutation unit := {|
  mutationFn := fun _ => DELETE ("/admin/reports/" ++ _id report)%string;
  onSuccess := fun ui =>
    (setSelectedReport None (invalidateQueries ["admin-reports"] ui),
     [toast_success "Report deleted successfully"]);
  onError := toastError "Failed to delete report"
|}.

Definition handleDeleteComment (report : Report) (confirm : option string)
           (commentId text : string) : list Effect :=
  if strictEq confirm "DELETE"
  then mutate (deleteCommentMutation report) commentId
  else [].

Definition handleDeleteReport (report : Report) (confirm : option string)
  : list Effect :=
  if strictEq confirm "DELETE"
  then mutate (deleteReportMutation report) tt
  else [].

(** The submit handler of the comment form:
    [if (newComment.trim()) addCommentMutation.mutate(newComment.trim())]. *)
Definition handleAddComment (report : Report) (ui : Ui) : list Effect :=
  if (trim (newComment ui) =? "")%string then []
  else mutate (addCommentMutation report) (trim (newComment ui)).

End ReportDetailModal.

Module RiderPerformance.

Definition queryKey (startDate endDate emailFilter : string) : list string :=
  ["rider-performance"; startDate; endDate; emailFilter].

(** The parameters of the table's query ... *)
Definition queryParams (startDate endDate emailFilter : string)
  : list (string * string) :=
  param "startDate" startDate ++ param "endDate" endDate
  ++ param "email" emailFilter.

(** ... and those [handleExport] sends for the CSV file. *)
Definition exportParams (startDate endDate emailFilter : string)
  : list (string * string) :=
  param "startDate" startDate ++ param "endDate" endDate.

End RiderPerformance.

(* ================================================================== *)
(** ** The session holder *)

Module AuthContext.

(** What [/auth/me] and [/auth/login] return of an account. *)
Record Identity : Type := {
  id : string;
  email : string;
  name : option string;
  role : string;
  adminRole : string
}.

(** [res.data] of [/auth/login] *)
Record LoginData : Type := {
  token : string;
  user : Identity
}.

(** The state of [AuthProvider], with the storage it reads and writes. *)
Record Session : Type := {
  localStorage : Storage;
  admin : option Identity;
  loading : bool
}.

Definition setAdmin (a : option Identity) (st : Session) : Session :=
  {| localStorage := localStorage st; admin := a; loading := loading st |}.

Definition setLoading (b : bool) (st : Session) : Session :=
  {| localStorage := localStorage st; admin := admin st; loading := b |}.

Definition withStorage (f : Storage -> Storage) (st : Session) : Session :=
  {| localStorage := f (localStorage st); admin := admin st;
     loading := loading st |}.

(** The state [AuthProvider] mounts with. *)
Definition mount (stored : Storage) : Session :=
  {| localStorage := stored; admin := None; loading := true |}.

(** How a call of [login] completes. *)
Inductive Thrown : Type :=
| RequestError (e : AxiosError)
| Error (message : string).

Inductive Completion : Type :=
| Returned
| Threw (t : Thrown).

(** [initAuth] from the [await] on: [me] is how [api.get("/auth/me")]
    settled. *)
Definition validated (me : Settled Identity) (st : Session) : Session :=
  setLoading false
    match me with
    | Fulfilled res_data =>
        if negb (role res_data =? "admin")%string
        then setAdmin None (withStorage (removeItem "admin_token") st)
        else setAdmin (Some res_data) st
    | Rejected _ =>
        setAdmin None (withStorage (removeItem "admin_token") st)
    end.

(** [if (!token)]: no item, or the empty string. *)
Definition hasToken (s : Storage) : bool :=
  match getItem "admin_token" s with
  | Some t => negb (t =? "")%string
  | None => false
  end.

Definition initAuth (me : Settled Identity) (st : Session) : Session :=
  if hasToken (localStorage st) then validated me st
  else setLoading false st.

(** [api_post] stands for [api.post("/auth/login", { email, password })]. *)
Definition login (api_post : string -> string -> Settled LoginData)
           (email password : string) (st : Session)
  : Completion * Session :=
  match api_post email password with
  | Rejected e => (Threw (RequestError e), st)
  | Fulfilled res_data =>
      if negb (role (user res_data) =? "admin")%string
      then (Threw (Error "Access denied. Admin account required."), st)
      else (Returned,
            setAdmin (Some (user res_data))
              (withStorage (setItem "admin_token" (token res_data)) st))
  end.

Definition logout (st : Session) : Session :=
  setAdmin None (withStorage (removeItem "admin_token") st).

(** The three states of the session holder. *)
Inductive Phase : Type :=
| unauthenticated
| validating
| authenticated.

Definition phase (st : Session) : Phase :=
  match admin st with
  | Some _ => authenticated
  | None => if loading st then validating else unauthenticated
  end.

(** One event of the session holder.  The continuation of [initAuth]
    is an event of its own: a [login] or a [logout] may run while the
    validation request is in flight. *)
Inductive step : Session -> Session -> Prop :=
| step_initAuth me st : step st (initAuth me st)
| step_validated me st : step st (validated me st)
| step_login api_post e p st : step st (snd (login api_post e p st))
| step_logout st : step st (logout st).

Inductive reachable : Session -> Prop :=
| reachable_mount stored : reachable (mount stored)
| reachable_step st st' : reachable st -> step st st' -> reachable st'.

(** The events when none of them runs while the validation request is
    in flight: [initAuth] is then one event. *)
Inductive atomic_step : Session -> Session -> Prop :=
| atomic_initAuth me st : atomic_step st (initAuth me st)
| atomic_login api_post e p st :
    atomic_step st (snd (login api_post e p st))
| atomic_logout st : atomic_step st (logout st).

Inductive reachable_atomic : Session -> Prop :=
| reachable_atomic_mount stored : reachable_atomic (mount stored)
| reachable_atomic_step st st' :
    reachable_atomic st -> atomic_step st st' -> reachable_atomic st'.

End AuthContext.

Module App.

(** What a protected route renders. *)
Inductive Element : Type :=
| Spinner
| Navigate (to : string)
| Layout.

(** [ProtectedRoute]: the spinner while [loading], the redirection when
    no admin is held, the layout with the page otherwise. *)
Definition ProtectedRoute (st : AuthContext.Session) : Element :=
  if AuthContext.loading st then Spinner
  else match AuthContext.admin st with
       | None => Navigate "/login"
       | Some _ => Layout
       end.

End App.

Module AdminLayout.

Record NavItem : Type := {
  to : string;
  label : string
}.

Definition navItems : list NavItem :=
  [{| to := "/"; label := "Dashboard" |};
   {| to := "/analytics"; label := "Analytics" |};
   {| to := "/users"; label := "Users" |};
   {| to := "/reports"; label := "Reports" |};
   {| to := "/rider-performance"; label := "Rider Performance" |}].

(** [location.pathname === item.to] *)
Definition isActive (pathname : string) (item : NavItem) : bool :=
  (pathname =? to item)%string.

(** [logout(); navigate("/login")]: the session and the location after. *)
Definition handleLogout (st : AuthContext.Session)
  : AuthContext.Session * string :=
  (AuthContext.logout st, "/login").

End AdminLayout.

(* ================================================================== *)
(** ** Vocabulary of the specification *)

(** [field] contains [needle] as a substring, letter case aside. *)
Definition containsCI (field needle : string) : Prop :=
  exists pre post,
    toLowerCase field = (pre ++ toLowerCase needle ++ post)%string.

(** An optional field is present and contains [needle]. *)
Definition fieldMatches (field : option string) (needle : string) : Prop :=
  exists f, field = Some f /\ containsCI f needle.

(** Non-increasing in [key], every element against all later ones. *)
Definition nonIncreasing {A : Type} (key : A -> Z) (l : list A) : Prop :=
  StronglySorted (fun a b => key b <= key a) l.

(** The elements of [l] whose key is [k], in their order in [l]. *)
Definition withKey {A : Type} (key : A -> Z) (k : Z) (l : list A) : list A :=
  filter (fun a => key a =? k) l.

(** [upvotes], a missing value counting as 0. *)
Definition upvotesOrZero (r : Report) : Z := orZero (upvotes r).

(** The comparator of [most-upvoted] with the default of its sibling:
    [(b.upvotes || 0) - (a.upvotes || 0)]. *)
Definition byUpvotesOrZero (a b : Report) : number :=
  Num (upvotesOrZero b - upvotesOrZero a).

(** A report that carries its description, as [interface Report]
    declares ([description: string]) and the data model requires. *)
Definition hasDescription (r : Report) : Prop := description r <> None.

(** The engagement score of the glossary: upvotes plus number of
    comments, a missing field counting as 0. *)
Definition engagementScore (r : Report) : Z :=
  match upvotes r with
  | Some u => u
  | None => 0
  end
  + match comments r with
    | Some cs => Z.of_nat (List.length cs)
    | None => 0
    end.

(** Every code unit of [s] is an ASCII character.  On such strings
    [toLowerCase] and [trim] above are the engine's functions. *)
Fixpoint isAscii (s : string) : bool :=
  match s with
  | EmptyString => true
  | String c s' => (N_of_ascii c <? 128)%N && isAscii s'
  end.

(** A property that is present and not the empty string. *)
Definition nonEmpty (field : option string) : Prop :=
  exists f, field = Some f /\ f <> "".

(** A report with something to search in: a description (be it empty), a
    non-empty location name or a non-empty reporter email. *)
Definition searchable (r : Report) : Prop :=
  description r <> None
  \/ nonEmpty (locationName r)
  \/ nonEmpty (reporterEmail r).

(** [l'] keeps some elements of [l], in the order they have in [l]. *)
Inductive Subsequence {A : Type} : list A -> list A -> Prop :=
| Subsequence_nil : Subsequence [] []
| Subsequence_keep x l' l : Subsequence l' l -> Subsequence (x :: l') (x :: l)
| Subsequence_drop x l' l : Subsequence l' l -> Subsequence l' (x :: l).

(** A confirmed handler issues exactly [call] when the prompt returned the
    word DELETE, and does nothing at all for any other answer (another
    text, or [null] when the prompt was dismissed). *)
Definition confirmedOnly (handler : option string -> list Effect)
           (call : Request) : Prop :=
  forall confirm,
    (confirm = Some "DELETE" -> handler confirm = [Issue call])
    /\ (confirm <> Some "DELETE" -> handler confirm = [])
    /\ ((exists r, In (Issue r) (handler confirm)) <->
        confirm = Some "DELETE").

(** A failed mutation leaves the state of the views as it was and shows
    one error notification: the backend's message, or [fallback]. *)
Definition failsCleanly {V : Type} (m : Mutation V) (fallback : string)
  : Prop :=
  forall error ui,
    settle m (Rejected error) ui
    = (ui, [toast_error (messageOr error fallback)]).

(** The badge of a category found in the table. *)
Definition badgeOf (c : TypeConfig) : Badge :=
  BadgeElement (Some (color c)) (Some (label c)).

(** The identity held, if any, is an admin. *)
Definition adminHeld (st : AuthContext.Session) : Prop :=
  forall a, AuthContext.admin st = Some a -> AuthContext.role a = "admin".

(** The sum of [f] over a list of reports. *)
Definition sumOf (f : Report -> Z) (l : list Report) : Z :=
  fold_right (fun r acc => f r + acc) 0 l.

(** The counts of the rows are small enough for their sums to be exact
    in double arithmetic: the magnitudes of the upvotes and the comment
    counts add up to 2^53 at most. *)
Definition safeTotals (rows : list Report) : Prop :=
  sumOf (fun r => Z.abs (upvotesOrZero r)) rows + sumOf commentCount rows
  <= 2 ^ 53.

(** Every character of [s] is white space. *)
Fixpoint allWhiteSpace (s : string) : bool :=
  match s with
  | EmptyString => true
  | String c s' => isWhiteSpace c && allWhiteSpace s'
  end.

(** [t] is [s] without the white space at its two ends. *)
Definition trimmedOf (s t : string) : Prop :=
  (exists a b, s = (a ++ t ++ b)%string
               /\ allWhiteSpace a = true /\ allWhiteSpace b = true)
  /\ (forall c rest, t = String c rest -> isWhiteSpace c = false)
  /\ (forall pre c, t = (pre ++ String c "")%string ->
                    isWhiteSpace c = false).

(** The cache [after] differs from the cache [before] by staleness marks
    at most: same queries in the same order, same keys, same data, and
    no mark taken away. *)
Definition staleOnly (before after : list Query) : Prop :=
  Forall2 (fun q q' => queryKey q' = queryKey q
                       /\ data q' = data q
                       /\ (isInvalidated q = true -> isInvalidated q' = true))
          before after.

(** Whatever the outcome, the mutation changes no cached data. *)
Definition keepsData {V : Type} (m : Mutation V) : Prop :=
  forall outcome ui,
    staleOnly (queries ui) (queries (fst (settle m outcome ui))).

(** After a success of the mutation every cached query whose key starts
    with [key] is stale, and the queries under other keys are in the
    cache as they were. *)
Definition refreshes {V : Type} (m : Mutation V) (key : list string) : Prop :=
  forall ui,
    (forall q', In q' (queries (fst (settle m (Fulfilled tt) ui))) ->
                isPrefix key (queryKey q') = true ->
                isInvalidated q' = true)
    /\ (forall q, In q (queries ui) ->
                  isPrefix key (queryKey q) = false ->
                  In q (queries (fst (settle m (Fulfilled tt) ui)))).

(** The mutation, succeeding or failing, leaves every cached query of
    the rider page as it is. *)
Definition skipsRiderQueries {V : Type} (m : Mutation V) : Prop :=
  forall outcome ui riderEmail q,
    In q (queries ui) ->
    queryKey q = RiderReports.queryKey riderEmail ->
    In q (queries (fst (settle m outcome ui))).

(* ------------------------------------------------------------------ *)
(** *** Sample data *)

Definition sampleComment : Comment :=
  {| comment_id := Some "c1"; comment_userId := "u2"; text := "noted";
     comment_createdAt := "2024-05-01T08:00:00Z" |}.

Definition sampleReporter : Reporter :=
  {| reporter_id := "u1"; email := Some "rider@trafeek.app";
     name := Some "Rider" |}.

(** A report as the backend sends it, with [up] upvotes and [n] comments. *)
Definition sampleReport (ident category : string) (desc : string)
           (up : Z) (n : nat) : Report :=
  {| _id := ident; type := category; description := Some desc;
     locationName := Some "EDSA, Makati"; photoUrl := None;
     userId := Some sampleReporter; upvotes := Some up;
     comments := Some (repeat sampleComment n);
     createdAt := "2024-05-01T07:00:00Z" |}.

Definition floodReport : Report :=
  sampleReport "r1" "flood" "Road FLOOD near bridge" 5 0.

Definition accidentReport : Report :=
  sampleReport "r2" "accident" "Two cars collided" 1 4.

Definition checkpointReport : Report :=
  sampleReport "r3" "checkpoint" "Checkpoint ahead" 3 2.

(** A report that carries none of the optional properties. *)
Definition bareReport : Report :=
  {| _id := "r0"; type := "flood"; description := None;
     locationName := None; photoUrl := None; userId := None;
     upvotes := None; comments := None;
     createdAt := "2024-05-01T06:00:00Z" |}.

(** A described report whose [upvotes] property is absent. *)
Definition unvotedReport : Report :=
  {| _id := "r4"; type := "construction";
     description := Some "Lane closed"; locationName := None;
     photoUrl := None; userId := Some sampleReporter;
     upvotes := None; comments := Some [];
     createdAt := "2024-05-01T09:00:00Z" |}.

(** A report of a category outside the five, and one whose category is
    the name of a method every object inherits. *)
Definition potholeReport : Report :=
  sampleReport "r5" "pothole" "Deep pothole" 2 1.

Definition toStringReport : Report :=
  sampleReport "r6" "toString" "Odd category" 0 0.

Definition adminIdentity : AuthContext.Identity :=
  {| AuthContext.id := "a1"; AuthContext.email := "ops@trafeek.app";
     AuthContext.name := Some "Ops"; AuthContext.role := "admin";
     AuthContext.adminRole := "moderator" |}.

Definition premiumIdentity : AuthContext.Identity :=
  {| AuthContext.id := "u9"; AuthContext.email := "rider@trafeek.app";
     AuthContext.name := None; AuthContext.role := "premium";
     AuthContext.adminRole := "" |}.

(** A backend that knows one account, [who], with password "secret". *)
Definition sampleBackend (who : AuthContext.Identity)
  : string -> string -> Settled AuthContext.LoginData :=
  fun email password =>
    if ((email =? AuthContext.email who) && (password =? "secret"))%string
    then Fulfilled {| AuthContext.token := "jwt-1"; AuthContext.user := who |}
    else Rejected {| response_message := Some "Invalid credentials" |}.

Definition emptyStorage : Storage := fun _ => None.

Definition storedToken : Storage := setItem "admin_token" "jwt-0" emptyStorage.

(** Two reports whose upvotes together exceed 2^53. *)
Definition hugeReport : Report :=
  sampleReport "r7" "flood" "Viral report" (2 ^ 53) 0.

Definition singleVoteReport : Report :=
  sampleReport "r8" "flood" "One vote" 1 0.

(** A cache with one page of users, one list of the reports page and
    the list of the rider page, none of them stale. *)
Definition sampleCache : Ui :=
  {| queries :=
       [{| queryKey := Users.queryKey "" "all"; data := UsersPayload [];
           isInvalidated := false |};
        {| queryKey := Reports.queryKey "all";
           data := ReportsPayload [floodReport]; isInvalidated := false |};
        {| queryKey := RiderReports.queryKey "rider@trafeek.app";
           data := ReportsPayload [floodReport]; isInvalidated := false |}];
     newComment := "  looks fixed now ";
     selectedReport := Some floodReport |}.

(* ================================================================== *)
(** ** Strings *)

Lemma toLowerCase_empty (s : string) : toLowerCase s = "" <-> s = "".
Proof.
  destruct s; simpl; split; intro H; try reflexivity; discriminate H.
Qed.

Lemma startsWith_spec (s p : string) :
  startsWith s p = true <-> exists post, s = (p ++ post)%string.
Proof.
  revert s; induction p as [|a p IH]; intros s; simpl.
  - split; [intros _; exists s; reflexivity | intros _; now destruct s].
  - destruct s as [|b s].
    + split; [discriminate | intros [post H]; discriminate H].
    + cbn [startsWith]. rewrite andb_true_iff, Ascii.eqb_eq, IH. split.
      * intros [-> [post ->]]. exists post; reflexivity.
      * intros [post H]. injection H as -> ->. split; [reflexivity|].
        exists post; reflexivity.
Qed.

Lemma includes_spec (s p : string) :
  includes s p = true <-> exists pre post, s = (pre ++ p ++ post)%string.
Proof.
  induction s as [|c s IH].
  - cbn [includes]. rewrite orb_false_r, startsWith_spec. split.
    + intros [post H]. exists "", post. exact H.
    + intros [pre [post H]]. destruct pre; simpl in H.
      * exists post. exact H.
      * discriminate H.
  - cbn [includes]. rewrite orb_true_iff, startsWith_spec, IH. split.
    + intros [[post H] | [pre [post H]]].
      * exists "", post. exact H.
      * exists (String c pre), post. simpl. now rewrite H.
    + intros [pre [post H]]. destruct pre as [|c' pre]; simpl in H.
      * left. exists post. exact H.
      * right. injection H as _ H. exists pre, post. exact H.
Qed.

Lemma includes_CI (f s : string) :
  includes (toLowerCase f) (toLowerCase s) = true <-> containsCI f s.
Proof. apply includes_spec. Qed.

Lemma includes_empty (s : string) : includes s "" = true.
Proof. destruct s; reflexivity. Qed.

Lemma containsCI_nonempty (f s : string) :
  containsCI f s -> s <> "" -> f <> "".
Proof.
  intros [pre [post H]] Hs ->. simpl in H.
  destruct pre; simpl in H; [|discriminate H].
  destruct (toLowerCase s) eqn:E; [|discriminate H].
  apply Hs, toLowerCase_empty, E.
Qed.

(* ------------------------------------------------------------------ *)
(** ** Truth values *)

Lemma truthy_or (a b : value) : truthy (or_ a b) = truthy a || truthy b.
Proof. unfold or_. destruct (truthy a) eqn:E; simpl; [exact E | reflexivity]. Qed.

Lemma truthy_and (a b : value) : truthy (and_ a b) = truthy a && truthy b.
Proof. unfold and_. destruct (truthy a) eqn:E; simpl; [reflexivity | exact E]. Qed.

Lemma truthy_fieldIncludes (field : option string) (s : string) :
  truthy (Reports.fieldIncludes field s) = true <->
  exists f, field = Some f /\ f <> "" /\ containsCI f s.
Proof.
  unfold Reports.fieldIncludes. destruct field as [f|]; simpl.
  - rewrite truthy_and. simpl. rewrite andb_true_iff, negb_true_iff,
      String.eqb_neq, includes_CI. split.
    + intros [H1 H2]. exists f. auto.
    + intros [f' [E [H1 H2]]]. injection E as <-. auto.
  - split; [discriminate | intros [f [E _]]; discriminate E].
Qed.

Lemma fieldIncludes_matches (field : option string) (s : string) :
  truthy (Reports.fieldIncludes field s) = true -> fieldMatches field s.
Proof.
  rewrite truthy_fieldIncludes. intros [f [E [_ H]]]. exists f. auto.
Qed.

Lemma matches_fieldIncludes (field : option string) (s : string) :
  s <> "" -> fieldMatches field s ->
  truthy (Reports.fieldIncludes field s) = true.
Proof.
  intros Hs [f [E H]]. apply truthy_fieldIncludes. exists f.
  repeat split; auto. eapply containsCI_nonempty; eauto.
Qed.

Lemma truthy_matchesSearch (search : string) (r : Report) :
  truthy (Reports.matchesSearch search r) =
  match description r with
  | Some d => includes (toLowerCase d) (toLowerCase search)
  | None => false
  end
  || truthy (Reports.fieldIncludes (locationName r) search)
  || truthy (Reports.fieldIncludes (reporterEmail r) search).
Proof.
  unfold Reports.matchesSearch. rewrite !truthy_or.
  destruct (description r); reflexivity.
Qed.

Lemma truthy_matchesLocation (locationSearch : string) (r : Report) :
  truthy (Reports.matchesLocation locationSearch r) =
  (locationSearch =? "")%string
  || truthy (Reports.fieldIncludes (locationName r) locationSearch).
Proof.
  unfold Reports.matchesLocation. rewrite truthy_or. simpl.
  now rewrite negb_involutive.
Qed.

Lemma truthy_keeps (search locationSearch : string) (r : Report) :
  truthy (Reports.keeps search locationSearch r) =
  truthy (Reports.matchesSearch search r)
  && truthy (Reports.matchesLocation locationSearch r).
Proof. apply truthy_and. Qed.

Lemma fieldIncludes_empty (field : option string) :
  nonEmpty field -> truthy (Reports.fieldIncludes field "") = true.
Proof.
  intros [f [E Hf]]. apply truthy_fieldIncludes. exists f.
  repeat split; auto. apply includes_CI, includes_empty.
Qed.

(** On a searchable report the search test is the specification's. *)
Lemma matchesSearch_spec (search : string) (r : Report) :
  searchable r ->
  truthy (Reports.matchesSearch search r) = true <->
  search = ""
  \/ fieldMatches (description r) search
  \/ fieldMatches (locationName r) search
  \/ fieldMatches (reporterEmail r) search.
Proof.
  intros Hs. rewrite truthy_matchesSearch, !orb_true_iff. split.
  - intros [[H | H] | H].
    + destruct (description r) as [d|]; [|discriminate H].
      right; left. exists d. split; [reflexivity | now apply includes_CI].
    + right; right; left. now apply fieldIncludes_matches.
    + right; right; right. now apply fieldIncludes_matches.
  - destruct (string_dec search "") as [-> | Hne].
    + intros _. destruct Hs as [Hd | [Hl | He]].
      * destruct (description r) as [d|]; [|now elim Hd].
        left; left. exact (includes_empty _).
      * left; right. now apply fieldIncludes_empty.
      * right. now apply fieldIncludes_empty.
    + intros [H | [[d [E H]] | [H | H]]].
      * contradiction.
      * rewrite E. left; left. apply includes_CI, H.
      * left; right. now apply matches_fieldIncludes.
      * right. now apply matches_fieldIncludes.
Qed.

(** A report that is not searchable fails the search test, whatever the
    search string. *)
Lemma matchesSearch_unsearchable (search : string) (r : Report) :
  ~ searchable r -> truthy (Reports.matchesSearch search r) = false.
Proof.
  intros Hn. apply not_true_is_false. intros H.
  rewrite truthy_matchesSearch, !orb_true_iff in H. apply Hn.
  destruct H as [[H | H] | H].
  - left. destruct (description r); [discriminate | discriminate H].
  - right; left. apply truthy_fieldIncludes in H as [f [E [Hf _]]].
    exists f. auto.
  - right; right. apply truthy_fieldIncludes in H as [f [E [Hf _]]].
    exists f. auto.
Qed.

Lemma matchesLocation_spec (locationSearch : string) (r : Report) :
  truthy (Reports.matchesLocation locationSearch r) = true <->
  locationSearch = "" \/ fieldMatches (locationName r) locationSearch.
Proof.
  rewrite truthy_matchesLocation, orb_true_iff, String.eqb_eq. split.
  - intros [H | H]; [left; exact H | right; now apply fieldIncludes_matches].
  - destruct (string_dec locationSearch "") as [-> | Hs].
    + intros _. left; reflexivity.
    + intros [H | H]; [contradiction | right; now apply matches_fieldIncludes].
Qed.

(* ================================================================== *)
(** ** The filter step *)

Lemma filterStep_In (search locationSearch : string) (reports : list Report)
      (r : Report) :
  In r (Reports.filterStep search locationSearch reports) <->
  In r reports /\ truthy (Reports.keeps search locationSearch r) = true.
Proof. unfold Reports.filterStep. apply filter_In. Qed.

(** C1: for every report list, search string and location filter, the
    filter step keeps a report (one that carries its description, as the
    interface declares) if and only if (the search string is empty or
    matches, letter case aside, a substring of its description, location
    name or reporter email) and (the location filter is empty or the
    location name contains it, letter case aside); and a report with no
    location name never passes a non-empty location filter. *)
Theorem filterStep_keeps_iff (search locationSearch : string)
        (reports : list Report) (r : Report) :
  (hasDescription r ->
   (In r (Reports.filterStep search locationSearch reports) <->
    In r reports
    /\ (search = ""
        \/ fieldMatches (description r) search
        \/ fieldMatches (locationName r) search
        \/ fieldMatches (reporterEmail r) search)
    /\ (locationSearch = ""
        \/ fieldMatches (locationName r) locationSearch)))
  /\ (locationName r = None -> locationSearch <> "" ->
      ~ In r (Reports.filterStep search locationSearch reports)).
Proof.
  split.
  - intros Hd. assert (Hs : searchable r) by (left; exact Hd).
    rewrite filterStep_In, truthy_keeps, andb_true_iff,
      (matchesSearch_spec search r Hs), matchesLocation_spec.
    reflexivity.
  - intros Hloc Hne Hin. apply filterStep_In in Hin as [_ Hk].
    rewrite truthy_keeps, andb_true_iff in Hk. destruct Hk as [_ Hk].
    apply matchesLocation_spec in Hk as [Hk | [f [E _]]].
    + contradiction.
    + rewrite Hloc in E. discriminate E.
Qed.

(** The flood report is found by "flood" whatever the letter case, and
    a report with no location name fails the location filter "edsa". *)
Lemma filterStep_keeps_iff_witness :
  (In floodReport
      (Reports.filterStep "flood" "" [floodReport; accidentReport]) <->
   In floodReport [floodReport; accidentReport]
   /\ ("flood" = ""
       \/ fieldMatches (description floodReport) "flood"
       \/ fieldMatches (locationName floodReport) "flood"
       \/ fieldMatches (reporterEmail floodReport) "flood")
   /\ ("" = "" \/ fieldMatches (locationName floodReport) ""))
  /\ ~ In unvotedReport (Reports.filterStep "" "edsa" [unvotedReport]).
Proof.
  split.
  - apply (proj1 (filterStep_keeps_iff "flood" ""
                    [floodReport; accidentReport] floodReport)).
    unfold hasDescription; simpl; discriminate.
  - apply (proj2 (filterStep_keeps_iff "" "edsa"
                    [unvotedReport] unvotedReport)).
    + reflexivity.
    + discriminate.
Defined.

(** The search ignores the letter case, in the search string and in
    the fields. *)
Example search_ignores_case :
  Reports.filteredReports "FLOOD" "" "all" [accidentReport; floodReport]
  = [floodReport]
  /\ Reports.filteredReports "flood" "" "all" [accidentReport; floodReport]
     = [floodReport]
  /\ Reports.filteredReports "" "makati" "all" [accidentReport; unvotedReport]
     = [accidentReport].
Proof. repeat split. Qed.

(* ================================================================== *)
(** ** The sort *)

Section SortFacts.
Context {A : Type}.
Variable comparefn : A -> A -> number.

Lemma insert_Permutation (x : A) (l : list A) :
  Permutation (insert comparefn x l) (x :: l).
Proof.
  induction l as [|y l IH]; simpl.
  - apply Permutation_refl.
  - destruct (SortCompare comparefn x y <=? 0).
    + apply Permutation_refl.
    + eapply perm_trans; [apply perm_skip, IH | apply perm_swap].
Qed.

Lemma sort_Permutation (l : list A) : Permutation (sort comparefn l) l.
Proof.
  induction l as [|x l IH]; simpl.
  - apply perm_nil.
  - eapply perm_trans; [apply insert_Permutation | apply perm_skip, IH].
Qed.

(** The comparator orders by a key, larger keys first. *)
Variable key : A -> Z.
Hypothesis by_key : forall a b, SortCompare comparefn a b = key b - key a.

Lemma insert_nonIncreasing (x : A) (l : list A) :
  nonIncreasing key l -> nonIncreasing key (insert comparefn x l).
Proof.
  unfold nonIncreasing.
  induction l as [|y l IH]; intros Hs; simpl.
  - repeat constructor.
  - inversion Hs as [|? ? Hl Hy]; subst. rewrite by_key.
    destruct (Z.leb_spec (key y - key x) 0) as [Hle | Hgt].
    + constructor; [exact Hs|]. constructor; [lia|].
      eapply Forall_impl; [|exact Hy]. simpl; intros; lia.
    + constructor; [apply IH, Hl|].
      eapply Permutation_Forall.
      * apply Permutation_sym, insert_Permutation.
      * constructor; [lia | exact Hy].
Qed.

Lemma sort_nonIncreasing (l : list A) :
  nonIncreasing key (sort comparefn l).
Proof.
  induction l as [|x l IH]; simpl.
  - constructor.
  - apply insert_nonIncreasing, IH.
Qed.

(** Stability: [x] goes in front of the elements with its own key. *)
Lemma withKey_insert (k : Z) (x : A) (l : list A) :
  withKey key k (insert comparefn x l) = withKey key k (x :: l).
Proof.
  unfold withKey.
  induction l as [|y l IH]; simpl; [reflexivity|].
  rewrite by_key.
  destruct (Z.leb_spec (key y - key x) 0) as [Hle | Hgt];
    [reflexivity|].
  simpl. rewrite IH. simpl.
  destruct (Z.eqb_spec (key x) k) as [Ex | Nx]; [|reflexivity].
  destruct (Z.eqb_spec (key y) k) as [Ey | Ny]; [lia | reflexivity].
Qed.

Lemma sort_stable (k : Z) (l : list A) :
  withKey key k (sort comparefn l) = withKey key k l.
Proof.
  induction l as [|x l IH]; simpl; [reflexivity|].
  rewrite withKey_insert. unfold withKey in *. simpl. now rewrite IH.
Qed.
End SortFacts.

(** Two comparators that agree on the elements of an array sort it alike. *)
Lemma insert_ext {A : Type} (f g : A -> A -> number) (x : A) (l : list A) :
  (forall y, In y l -> SortCompare f x y = SortCompare g x y) ->
  insert f x l = insert g x l.
Proof.
  induction l as [|y l IH]; intros H; simpl; [reflexivity|].
  rewrite (H y (or_introl eq_refl)), IH; [reflexivity|].
  intros z Hz. apply H. now right.
Qed.

Lemma sort_ext {A : Type} (f g : A -> A -> number) (l : list A) :
  (forall x y, In x l -> In y l -> SortCompare f x y = SortCompare g x y) ->
  sort f l = sort g l.
Proof.
  induction l as [|x l IH]; intros H; simpl; [reflexivity|].
  rewrite IH by (intros; apply H; now right).
  apply insert_ext. intros y Hy. apply H; [now left | right].
  eapply Permutation_in; [apply sort_Permutation | exact Hy].
Qed.


Lemma sortStep_mostUpvoted (filtered : list Report) :
  Reports.sortStep "most-upvoted" filtered = sort Reports.byUpvotes filtered.
Proof. reflexivity. Qed.

Lemma sortStep_mostCommented (filtered : list Report) :
  Reports.sortStep "most-commented" filtered
  = sort Reports.byComments filtered.
Proof. reflexivity. Qed.

(** When every report carries [upvotes], [most-upvoted] orders by it. *)
Lemma mostUpvoted_sorted_when_present (filtered : list Report) :
  Forall (fun r => upvotes r <> None) filtered ->
  nonIncreasing upvotesOrZero (Reports.sortStep "most-upvoted" filtered).
Proof.
  intros Hall. rewrite sortStep_mostUpvoted.
  rewrite (sort_ext Reports.byUpvotes
             (fun a b => Num (upvotesOrZero b - upvotesOrZero a))).
  - apply sort_nonIncreasing. reflexivity.
  - rewrite Forall_forall in Hall. intros x y Hx Hy.
    unfold SortCompare, Reports.byUpvotes, upvotesOrZero.
    destruct (upvotes x) eqn:Ex; [|now elim (Hall x Hx)].
    destruct (upvotes y) eqn:Ey; [|now elim (Hall y Hy)].
    reflexivity.
Qed.

(** C2 at the failing input: a report without [upvotes] ahead of one with
    five upvotes.  The comparator yields [NaN] for the pair, the sort
    takes the two for equal and leaves them as they stand: with the
    missing value counted as 0 the result reads 0, 5. *)
Theorem mostUpvoted_missing_upvotes_unsorted :
  Reports.byUpvotes unvotedReport floodReport = NaN
  /\ Reports.byUpvotes floodReport unvotedReport = NaN
  /\ Reports.filteredReports "" "" "most-upvoted" [unvotedReport; floodReport]
     = [unvotedReport; floodReport]
  /\ map upvotesOrZero
       (Reports.filteredReports "" "" "most-upvoted"
          [unvotedReport; floodReport]) = [0; 5]
  /\ ~ nonIncreasing upvotesOrZero
       (Reports.filteredReports "" "" "most-upvoted"
          [unvotedReport; floodReport]).
Proof.
  repeat split; try reflexivity.
  intros H. vm_compute in H. inversion H as [|? ? _ Hall]; subst.
  inversion Hall as [|? ? Hle _]; subst. vm_compute in Hle. apply Hle.
  reflexivity.
Qed.

Lemma scoreOf_engagementScore (r : Report) :
  Reports.scoreOf r = engagementScore r.
Proof.
  unfold Reports.scoreOf, engagementScore, orZero, commentCount.
  destruct (upvotes r), (comments r); reflexivity.
Qed.


(** C5: upvotes 5, 1, 3 and comment counts 0, 4, 2 come out under
    [most-commented] as the reports with 4, 2 and 0 comments; in general
    the rendered list is non-increasing in the comment count, a missing
    [comments] counting as 0, and holds the reports of the filtered
    list. *)
Theorem mostCommented_scenario_and_order :
  map upvotesOrZero [floodReport; accidentReport; checkpointReport]
  = [5; 1; 3]
  /\ map commentCount [floodReport; accidentReport; checkpointReport]
     = [0; 4; 2]
  /\ Reports.filteredReports "" "" "most-commented"
       [floodReport; accidentReport; checkpointReport]
     = [accidentReport; checkpointReport; floodReport]
  /\ (forall search locationSearch reports,
        nonIncreasing commentCount
          (Reports.filteredReports search locationSearch "most-commented"
             reports)
        /\ Permutation
             (Reports.filteredReports search locationSearch "most-commented"
                reports)
             (Reports.filterStep search locationSearch reports))
  /\ (forall r, comments r = None -> commentCount r = 0).
Proof.
  split; [reflexivity|]. split; [reflexivity|]. split; [reflexivity|].
  split.
  - intros search locationSearch reports. unfold Reports.filteredReports.
    rewrite sortStep_mostCommented. split.
    + apply sort_nonIncreasing. reflexivity.
    + apply sort_Permutation.
  - intros r E. unfold commentCount. now rewrite E.
Qed.

(** Scores 0, 3, 5, 5: the two reports of score 5 keep their order. *)
Example highEngagement_example :
  Reports.filteredReports "" "" "high-engagement"
    [unvotedReport; potholeReport; checkpointReport; floodReport]
  = [checkpointReport; floodReport; potholeReport; unvotedReport]
  /\ map Reports.scoreOf
       [unvotedReport; potholeReport; checkpointReport; floodReport]
     = [0; 3; 5; 5].
Proof. split; reflexivity. Qed.

(* ================================================================== *)
(** ** The store of arrays *)

Lemma deref_alloc_old (a : list Report) (h : Store) (p : nat) :
  (p < List.length h)%nat -> deref (snd (alloc a h)) p = deref h p.
Proof. intros Hp. unfold deref, alloc; simpl. now apply app_nth1. Qed.

Lemma deref_alloc_new (a : list Report) (h : Store) :
  deref (snd (alloc a h)) (fst (alloc a h)) = a.
Proof.
  unfold deref, alloc; simpl. rewrite app_nth2 by lia.
  now rewrite Nat.sub_diag.
Qed.

Lemma length_alloc (a : list Report) (h : Store) :
  List.length (snd (alloc a h)) = S (List.length h).
Proof. unfold alloc; simpl. rewrite length_app; simpl. lia. Qed.

Lemma deref_assign_same (a : list Report) (h : Store) (p : nat) :
  (p < List.length h)%nat -> deref (assign p a h) p = a.
Proof.
  unfold deref. revert p; induction h as [|x h IH]; intros p Hp; simpl in *.
  - lia.
  - destruct p; simpl; [reflexivity | apply IH; lia].
Qed.

Lemma deref_assign_other (a : list Report) (h : Store) (p q : nat) :
  p <> q -> deref (assign p a h) q = deref h q.
Proof.
  unfold deref. revert p q; induction h as [|x h IH]; intros p q Hpq.
  - now destruct p.
  - destruct p, q; simpl; try reflexivity; [lia | apply IH; lia].
Qed.

(** A copy of the filtered array is sorted: the arrays that existed
    before are as they were. *)
Lemma sort_copy_spec (comparefn : Report -> Report -> number)
      (filtered : nat) (h1 : Store) :
  (filtered < List.length h1)%nat ->
  let (copy, h2) := Array_spread filtered h1 in
  let (shown, h3) := Array_sort comparefn copy h2 in
  deref h3 shown = sort comparefn (deref h1 filtered)
  /\ forall q, (q < List.length h1)%nat -> deref h3 q = deref h1 q.
Proof.
  intros Hf. unfold Array_spread, Array_sort.
  destruct (alloc (deref h1 filtered) h1) as [copy h2] eqn:E.
  assert (Ec : copy = List.length h1) by (unfold alloc in E; congruence).
  assert (E2 : h2 = snd (alloc (deref h1 filtered) h1)) by now rewrite E.
  assert (Hnew : deref h2 copy = deref h1 filtered).
  { rewrite E2, Ec. apply (deref_alloc_new (deref h1 filtered) h1). }
  split.
  - rewrite deref_assign_same; [now rewrite Hnew|].
    rewrite E2, length_alloc. lia.
  - intros q Hq. rewrite deref_assign_other by lia.
    rewrite E2. now apply deref_alloc_old.
Qed.

(** [render] computes [filteredReports] into a new array and leaves
    every array of the store as it was. *)
Lemma render_spec (search locationSearch engagementFilter : string)
      (reports : nat) (h : Store) :
  (reports < List.length h)%nat ->
  let (shown, h') :=
    Reports.render search locationSearch engagementFilter reports h in
  deref h' shown
  = Reports.filteredReports search locationSearch engagementFilter
      (deref h reports)
  /\ (forall q, (q < List.length h)%nat -> deref h' q = deref h q)
  /\ (List.length h <= List.length h')%nat.
Proof.
  intros Hp. unfold Reports.render, Reports.filteredReports, Reports.sortStep.
  unfold Array_filter. fold (Reports.filterStep search locationSearch
                               (deref h reports)).
  set (fl := Reports.filterStep search locationSearch (deref h reports)).
  destruct (alloc fl h) as [filtered h1] eqn:E.
  assert (Ef : filtered = List.length h) by (unfold alloc in E; congruence).
  assert (E1 : h1 = snd (alloc fl h)) by now rewrite E.
  assert (Hfl : deref h1 filtered = fl).
  { rewrite E1, Ef. apply (deref_alloc_new fl h). }
  assert (Hold : forall q, (q < List.length h)%nat -> deref h1 q = deref h q).
  { intros q Hq. rewrite E1. now apply deref_alloc_old. }
  assert (Hlen : List.length h1 = S (List.length h)).
  { rewrite E1. apply length_alloc. }
  assert (Hsorted : forall comparefn,
             let (shown, h') :=
               let (copy, h2) := Array_spread filtered h1 in
               Array_sort comparefn copy h2 in
             deref h' shown = sort comparefn fl
             /\ (forall q, (q < List.length h)%nat -> deref h' q = deref h q)
             /\ (List.length h <= List.length h')%nat).
  { intros comparefn.
    pose proof (sort_copy_spec comparefn filtered h1) as S.
    unfold Array_spread, Array_sort in *.
    destruct (alloc (deref h1 filtered) h1) as [copy h2] eqn:E2.
    destruct S as [S1 S2]; [lia|]. split; [now rewrite S1, Hfl|]. split.
    - intros q Hq. rewrite S2 by lia. now apply Hold.
    - assert (L2 : List.length h2 = S (List.length h1)).
      { replace h2 with (snd (alloc (deref h1 filtered) h1)) by now rewrite E2.
        apply length_alloc. }
      assert (La : forall p a (s : Store),
                 List.length (assign p a s) = List.length s).
      { intros p a s; revert p; induction s as [|x s IH]; intros [|p]; simpl;
          try reflexivity; now rewrite IH. }
      rewrite La. lia. }
  destruct (engagementFilter =? "high-engagement")%string;
    [apply Hsorted|].
  destruct (engagementFilter =? "most-upvoted")%string; [apply Hsorted|].
  destruct (engagementFilter =? "most-commented")%string; [apply Hsorted|].
  split; [exact Hfl|]. split; [exact Hold | lia].
Qed.

(* ================================================================== *)
(** ** Clearing the filters *)

Lemma filterStep_Subsequence (search locationSearch : string)
      (reports : list Report) :
  Subsequence (Reports.filterStep search locationSearch reports) reports.
Proof.
  unfold Reports.filterStep.
  induction reports as [|r reports IH]; simpl.
  - constructor.
  - destruct (truthy (Reports.keeps search locationSearch r));
      constructor; exact IH.
Qed.

Lemma filterStep_cleared (reports : list Report) :
  Forall searchable reports -> Reports.filterStep "" "" reports = reports.
Proof.
  unfold Reports.filterStep.
  induction 1 as [|r reports Hr _ IH]; simpl; [reflexivity|].
  rewrite IH.
  assert (K : truthy (Reports.keeps "" "" r) = true).
  { rewrite truthy_keeps, andb_true_iff. split.
    - apply (matchesSearch_spec "" r Hr). now left.
    - apply matchesLocation_spec. now left. }
  now rewrite K.
Qed.

(** C3: the filter step keeps a subsequence of the base list, in its
    order; rendering under any search string, location filter and
    selector leaves the base array untouched; and for every base list
    (of reports that carry their description, as the interface
    declares), rendering afterwards with the search and the location
    filter cleared and no sort selected shows the base list itself, in
    its order. *)
Theorem cleared_filters_show_base_list
        (search locationSearch engagementFilter : string)
        (reports : nat) (h : Store) :
  (reports < List.length h)%nat ->
  let first :=
    Reports.render search locationSearch engagementFilter reports h in
  let second := Reports.render "" "" "all" reports (snd first) in
  Subsequence (Reports.filterStep search locationSearch (deref h reports))
              (deref h reports)
  /\ deref (snd first) reports = deref h reports
  /\ deref (snd second) reports = deref h reports
  /\ (Forall hasDescription (deref h reports) ->
      deref (snd second) (fst second) = deref h reports).
Proof.
  intros Hp first second. subst second first.
  pose proof (render_spec search locationSearch engagementFilter reports h Hp)
    as R1.
  destruct (Reports.render search locationSearch engagementFilter reports h)
    as [shown1 h1].
  destruct R1 as [_ [Hold1 Hlen1]]. cbn [fst snd].
  assert (Hp1 : (reports < List.length h1)%nat) by lia.
  pose proof (render_spec "" "" "all" reports h1 Hp1) as R2.
  destruct (Reports.render "" "" "all" reports h1) as [shown2 h2].
  destruct R2 as [Hshown [Hold2 _]]. cbn [fst snd].
  split; [apply filterStep_Subsequence|].
  split; [now apply Hold1|].
  split; [rewrite Hold2 by exact Hp1; now apply Hold1|].
  intros Hall. rewrite Hshown, (Hold1 reports Hp).
  unfold Reports.filteredReports. simpl. apply filterStep_cleared.
  eapply Forall_impl; [|exact Hall]. intros r Hr. left. exact Hr.
Qed.

(** Searching "flood" under [most-commented] and then clearing the
    search shows the three sample reports in their base order. *)
Lemma cleared_filters_show_base_list_witness :
  let base := [floodReport; accidentReport; checkpointReport] in
  let first := Reports.render "flood" "" "most-commented" 0 [base] in
  let second := Reports.render "" "" "all" 0 (snd first) in
  deref (snd first) (fst first) = [floodReport]
  /\ deref (snd second) (fst second) = base.
Proof.
  split; [reflexivity|].
  apply (cleared_filters_show_base_list "flood" "" "most-commented" 0%nat
           [[floodReport; accidentReport; checkpointReport]]).
  - simpl; lia.
  - repeat (apply Forall_cons;
            [unfold hasDescription; simpl; discriminate|]).
    apply Forall_nil.
Defined.

(* ================================================================== *)
(** ** The session holder *)

Import AuthContext.

Lemma getItem_removeItem (key : string) (s : Storage) :
  getItem key (removeItem key s) = None.
Proof. unfold getItem, removeItem. now rewrite String.eqb_refl. Qed.

Lemma getItem_setItem (key v : string) (s : Storage) :
  getItem key (setItem key v s) = Some v.
Proof. unfold getItem, setItem. now rewrite String.eqb_refl. Qed.

(** C6: when the backend answers a login with an identity whose role is
    not admin, [login] throws the access-denied error and the session,
    its storage included, is what it was, so that no token is stored;
    when the role is admin, [login] returns, the token of the answer is
    stored under [admin_token] and the session is authenticated. *)
Theorem login_admin_only
        (api_post : string -> string -> Settled LoginData)
        (email password : string) (st : Session) (res_data : LoginData) :
  api_post email password = Fulfilled res_data ->
  (role (user res_data) <> "admin" ->
   login api_post email password st
   = (Threw (Error "Access denied. Admin account required."), st)
   /\ getItem "admin_token"
        (localStorage (snd (login api_post email password st)))
      = getItem "admin_token" (localStorage st))
  /\ (role (user res_data) = "admin" ->
      fst (login api_post email password st) = Returned
      /\ getItem "admin_token"
           (localStorage (snd (login api_post email password st)))
         = Some (token res_data)
      /\ admin (snd (login api_post email password st))
         = Some (user res_data)
      /\ phase (snd (login api_post email password st)) = authenticated).
Proof.
  intros Hres. unfold login. rewrite Hres. split.
  - intros Hrole. apply String.eqb_neq in Hrole. rewrite Hrole. simpl.
    split; reflexivity.
  - intros Hrole. apply String.eqb_eq in Hrole. rewrite Hrole. simpl.
    split; [reflexivity|]. split; [apply getItem_setItem|].
    split; reflexivity.
Qed.

(** A premium account is turned away from an empty session and nothing
    is stored; the admin account signs in. *)
Lemma login_admin_only_witness :
  (login (sampleBackend premiumIdentity) "rider@trafeek.app" "secret"
         (mount emptyStorage)
   = (Threw (Error "Access denied. Admin account required."),
      mount emptyStorage)
   /\ getItem "admin_token"
        (localStorage
           (snd (login (sampleBackend premiumIdentity) "rider@trafeek.app"
                       "secret" (mount emptyStorage))))
      = None)
  /\ getItem "admin_token"
       (localStorage
          (snd (login (sampleBackend adminIdentity) "ops@trafeek.app"
                      "secret" (mount emptyStorage))))
     = Some "jwt-1".
Proof.
  split.
  - apply (proj1 (login_admin_only (sampleBackend premiumIdentity)
                    "rider@trafeek.app" "secret" (mount emptyStorage)
                    {| token := "jwt-1"; user := premiumIdentity |}
                    eq_refl)).
    simpl; discriminate.
  - apply (proj2 (login_admin_only (sampleBackend adminIdentity)
                    "ops@trafeek.app" "secret" (mount emptyStorage)
                    {| token := "jwt-1"; user := adminIdentity |}
                    eq_refl)).
    reflexivity.
Defined.

Lemma validated_adminHeld (me : Settled Identity) (st : Session) :
  adminHeld (validated me st).
Proof.
  unfold adminHeld, validated. intros a.
  destruct me as [res_data | e]; simpl.
  - destruct (role res_data =? "admin")%string eqn:E; simpl.
    + intros H. injection H as <-. now apply String.eqb_eq.
    + discriminate.
  - discriminate.
Qed.

Lemma step_adminHeld (st st' : Session) :
  step st st' -> adminHeld st -> adminHeld st'.
Proof.
  intros Hstep Hinv. destruct Hstep as [me st | me st | api_post e p st | st].
  - unfold initAuth. destruct (hasToken (localStorage st)).
    + apply validated_adminHeld.
    + exact Hinv.
  - apply validated_adminHeld.
  - unfold login. destruct (api_post e p) as [res_data | err]; simpl.
    + destruct (role (user res_data) =? "admin")%string eqn:E; simpl.
      * intros a H. injection H as <-. now apply String.eqb_eq.
      * exact Hinv.
    + exact Hinv.
  - intros a H. discriminate H.
Qed.

Lemma reachable_adminHeld (st : Session) : reachable st -> adminHeld st.
Proof.
  induction 1 as [stored | st st' _ IH Hstep].
  - intros a H. discriminate H.
  - eapply step_adminHeld; eauto.
Qed.

(** C7: the startup validation ends authenticated only if a credential
    was stored and the backend answered with an identity of role admin,
    which is then the identity held; when a credential is stored and the
    request fails or the identity is not an admin, the credential is
    removed and the session ends unauthenticated; and in every reachable
    state the identity held has role admin. *)
Theorem initAuth_admin_only :
  (forall stored me a,
      admin (initAuth me (mount stored)) = Some a ->
      hasToken stored = true /\ me = Fulfilled a /\ role a = "admin")
  /\ (forall st me,
         hasToken (localStorage st) = true ->
         (forall a, me = Fulfilled a -> role a <> "admin") ->
         admin (initAuth me st) = None
         /\ getItem "admin_token" (localStorage (initAuth me st)) = None
         /\ loading (initAuth me st) = false
         /\ phase (initAuth me st) = unauthenticated)
  /\ (forall st a, reachable st -> admin st = Some a -> role a = "admin").
Proof.
  split; [|split].
  - intros stored me a. unfold initAuth, mount; simpl.
    destruct (hasToken stored); [|discriminate].
    unfold validated. destruct me as [res_data | e]; simpl; [|discriminate].
    destruct (role res_data =? "admin")%string eqn:E; simpl; [|discriminate].
    intros H. injection H as <-. apply String.eqb_eq in E. auto.
  - intros st me Htok Hme. unfold initAuth. rewrite Htok.
    assert (E : validated me st
                = setLoading false
                    (setAdmin None
                       (withStorage (removeItem "admin_token") st))).
    { unfold validated. destruct me as [res_data | e]; [|reflexivity].
      pose proof (Hme res_data eq_refl) as Hr.
      apply String.eqb_neq in Hr. now rewrite Hr. }
    rewrite E. split; [reflexivity|].
    split; [apply getItem_removeItem|]. split; reflexivity.
  - intros st a Hreach. now apply reachable_adminHeld.
Qed.

(** With a stored token: the admin identity is kept by the validation, a
    failed request discards the token, and the state after a logout and
    a new login of the admin holds an admin. *)
Lemma initAuth_admin_only_witness :
  (hasToken storedToken = true
   /\ Fulfilled adminIdentity = Fulfilled adminIdentity
   /\ role adminIdentity = "admin")
  /\ (admin (initAuth (Rejected {| response_message := None |})
               (mount storedToken)) = None
      /\ getItem "admin_token"
           (localStorage
              (initAuth (Rejected {| response_message := None |})
                 (mount storedToken))) = None
      /\ loading (initAuth (Rejected {| response_message := None |})
                    (mount storedToken)) = false
      /\ phase (initAuth (Rejected {| response_message := None |})
                  (mount storedToken)) = unauthenticated)
  /\ role adminIdentity = "admin".
Proof.
  split; [|split].
  - apply (proj1 initAuth_admin_only storedToken (Fulfilled adminIdentity)
             adminIdentity).
    reflexivity.
  - apply (proj1 (proj2 initAuth_admin_only) (mount storedToken)
             (Rejected {| response_message := None |})).
    + reflexivity.
    + intros a H. discriminate H.
  - apply (proj2 (proj2 initAuth_admin_only)
             (snd (login (sampleBackend adminIdentity) "ops@trafeek.app"
                     "secret" (logout (mount storedToken))))
             adminIdentity).
    + eapply reachable_step; [eapply reachable_step|].
      * apply reachable_mount.
      * apply step_logout.
      * apply step_login.
    + reflexivity.
Defined.

(* ================================================================== *)
(** ** Confirmation prompts *)

Lemma strictEq_true (v : option string) (lit : string) :
  strictEq v lit = true <-> v = Some lit.
Proof.
  destruct v as [s|]; simpl.
  - rewrite String.eqb_eq. split; [intros ->; reflexivity | congruence].
  - split; discriminate.
Qed.

(** The shape the five delete handlers share. *)
Lemma confirmedOnly_guard {V : Type} (m : Mutation V) (v : V) :
  confirmedOnly
    (fun confirm => if strictEq confirm "DELETE" then mutate m v else [])
    (mutationFn m v).
Proof.
  intros confirm. split; [|split].
  - intros ->. reflexivity.
  - intros Hne. destruct (strictEq confirm "DELETE") eqn:E; [|reflexivity].
    apply strictEq_true in E. contradiction.
  - destruct (strictEq confirm "DELETE") eqn:E.
    + apply strictEq_true in E. split; [intros _; exact E|].
      intros _. exists (mutationFn m v). now left.
    + split.
      * intros [r []].
      * intros H. apply strictEq_true in H. congruence.
Qed.

(** C8: each delete handler (user, report on the three views that offer
    it, comment) issues its DELETE request if and only if the prompt
    returned exactly DELETE; any other answer, the lowercase word
    included, produces no request and no notification. *)
Theorem delete_requires_exact_confirmation
        (userId userEmail reportId description commentId commentText : string)
        (report : Report) :
  confirmedOnly (fun c => Users.handleDelete c userId userEmail)
                (DELETE ("/admin/users/" ++ userId)%string)
  /\ confirmedOnly (fun c => Reports.handleDelete c reportId description)
                   (DELETE ("/admin/reports/" ++ reportId)%string)
  /\ confirmedOnly (fun c => RiderReports.handleDelete c reportId description)
                   (DELETE ("/admin/reports/" ++ reportId)%string)
  /\ confirmedOnly (fun c => ReportDetailModal.handleDeleteReport report c)
                   (DELETE ("/admin/reports/" ++ _id report)%string)
  /\ confirmedOnly
       (fun c => ReportDetailModal.handleDeleteComment report c commentId
                   commentText)
       (DELETE ("/admin/reports/" ++ _id report ++ "/comments/"
                  ++ commentId)%string)
  /\ Users.handleDelete (Some "delete") userId userEmail = []
  /\ Users.handleDelete None userId userEmail = [].
Proof.
  split; [apply (confirmedOnly_guard Users.deleteMutation userId)|].
  split; [apply (confirmedOnly_guard Reports.deleteMutation reportId)|].
  split; [apply (confirmedOnly_guard RiderReports.deleteMutation reportId)|].
  split; [apply (confirmedOnly_guard
                   (ReportDetailModal.deleteReportMutation report) tt)|].
  split; [apply (confirmedOnly_guard
                   (ReportDetailModal.deleteCommentMutation report)
                   commentId)|].
  split; reflexivity.
Qed.

Example delete_confirmation_example :
  Users.handleDelete (Some "DELETE") "u7" "rider@trafeek.app"
  = [Issue (DELETE "/admin/users/u7")]
  /\ Users.handleDelete (Some "delete") "u7" "rider@trafeek.app" = []
  /\ Users.handleDelete (Some "DELETE ") "u7" "rider@trafeek.app" = []
  /\ ReportDetailModal.handleDeleteComment floodReport (Some "DELETE") "c1"
       "noted"
     = [Issue (DELETE "/admin/reports/r1/comments/c1")]
  /\ ReportDetailModal.handleDeleteReport floodReport None = [].
Proof. repeat split. Qed.

(* ================================================================== *)
(** ** Failed mutations *)

Lemma messageOr_spec (error : AxiosError) (fallback : string) :
  (forall m, response_message error = Some m -> m <> "" ->
             messageOr error fallback = m)
  /\ (response_message error = None -> messageOr error fallback = fallback)
  /\ (response_message error = Some "" -> messageOr error fallback = fallback).
Proof.
  unfold messageOr. split; [|split].
  - intros m -> Hm. apply String.eqb_neq in Hm. now rewrite Hm.
  - intros ->. reflexivity.
  - intros ->. reflexivity.
Qed.

(** C9: when its request fails, each mutation (suspend, unsuspend, delete
    user, delete report on the three views that offer it, delete comment,
    add comment) shows one error notification, with the message of the
    backend's error payload when there is a non-empty one and its own
    fallback text otherwise, and leaves the state of the views (query
    cache, draft comment, selected report) exactly as it was. *)
Theorem failed_mutation_changes_nothing (report : Report) :
  failsCleanly Users.suspendMutation "Failed to suspend user"
  /\ failsCleanly Users.unsuspendMutation "Failed to unsuspend user"
  /\ failsCleanly Users.deleteMutation "Failed to delete user"
  /\ failsCleanly Reports.deleteMutation "Failed to delete report"
  /\ failsCleanly RiderReports.deleteMutation "Failed to delete report"
  /\ failsCleanly (ReportDetailModal.deleteReportMutation report)
                  "Failed to delete report"
  /\ failsCleanly (ReportDetailModal.deleteCommentMutation report)
                  "Failed to delete comment"
  /\ failsCleanly (ReportDetailModal.addCommentMutation report)
                  "Failed to add comment"
  /\ (forall error fallback,
         (forall m, response_message error = Some m -> m <> "" ->
                    messageOr error fallback = m)
         /\ (response_message error = None ->
             messageOr error fallback = fallback)
         /\ (response_message error = Some "" ->
             messageOr error fallback = fallback)).
Proof.
  repeat (split; [intros error ui; reflexivity|]).
  apply messageOr_spec.
Qed.

(** A failed and a successful deletion of a user, on a cache that holds
    one page of users and one page of reports. *)
Example failed_mutation_example :
  let ui :=
    {| queries :=
         [{| queryKey := ["users"; ""; "all"]; data := UsersPayload [];
             isInvalidated := false |};
          {| queryKey := ["admin-reports"; "all"];
             data := ReportsPayload [floodReport]; isInvalidated := false |}];
       newComment := "draft"; selectedReport := None |} in
  settle Users.deleteMutation
    (Rejected {| response_message := Some "User not found" |}) ui
  = (ui, [toast_error "User not found"])
  /\ settle Users.deleteMutation (Rejected {| response_message := None |}) ui
     = (ui, [toast_error "Failed to delete user"])
  /\ map isInvalidated
       (queries (fst (settle Users.deleteMutation (Fulfilled tt) ui)))
     = [true; false].
Proof. repeat split. Qed.

(* ================================================================== *)
(** ** Category badges *)

Lemma ownProperty_None (table : list (string * TypeConfig)) (key : string) :
  ~ In key (map fst table) -> ownProperty table key = None.
Proof.
  induction table as [|[k c] table IH]; simpl; intros H; [reflexivity|].
  destruct (String.eqb_spec k key) as [E | N].
  - elim H. now left.
  - apply IH. intros Hin. apply H. now right.
Qed.

Lemma renderBadge_unknown (table : list (string * TypeConfig))
      (key : string) :
  ~ In key (map fst table) ->
  (forall c, getProperty table key <> Own c)
  /\ (renderBadge (getProperty table key) = TypeError
      \/ renderBadge (getProperty table key) = BadgeElement None None).
Proof.
  intros H. unfold getProperty. rewrite (ownProperty_None table key H).
  destruct (existsb (String.eqb key) ObjectPrototype); simpl.
  - split; [discriminate | now right].
  - split; [discriminate | now left].
Qed.

Lemma renderBadge_known (table : list (string * TypeConfig)) (key : string) :
  map fst table = categories ->
  In key categories ->
  exists c, In (key, c) table
            /\ getProperty table key = Own c
            /\ renderBadge (getProperty table key) = badgeOf c.
Proof.
  intros Hkeys Hin.
  assert (Hown : exists c, In (key, c) table /\ ownProperty table key = Some c).
  { rewrite <- Hkeys in Hin. clear Hkeys.
    induction table as [|[k c] table IH]; simpl in *; [contradiction|].
    destruct (String.eqb_spec k key) as [E | N].
    - exists c. subst k. split; [now left | reflexivity].
    - destruct Hin as [E | Hin]; [contradiction|].
      destruct (IH Hin) as [c' [H1 H2]]. exists c'. split; [now right | exact H2]. }
  destruct Hown as [c [Hc Hown]]. exists c. unfold getProperty.
  rewrite Hown. repeat split. exact Hc.
Qed.

(** C10: for a report whose category is one of the five, the lookup in
    [reportTypes] finds the configuration of that category and the badge
    renders with its label and colour (on the reports views and in the
    modal alike); for any other category the lookup finds no
    configuration, and rendering the badge throws a [TypeError], or, for
    a name inherited from [Object.prototype], yields neither label nor
    colour; hence a list whose categories are all among the five renders
    every badge. *)
Theorem category_lookup (report : Report) :
  (In (type report) categories ->
   (exists c, In (type report, c) RiderReports.reportTypes
              /\ RiderReports.typeConfig report = Own c
              /\ renderBadge (RiderReports.typeConfig report) = badgeOf c)
   /\ Reports.typeConfig report = RiderReports.typeConfig report
   /\ (exists c, In (type report, c) ReportDetailModal.reportTypes
                 /\ ReportDetailModal.typeConfig report = Own c
                 /\ renderBadge (ReportDetailModal.typeConfig report)
                    = badgeOf c))
  /\ (~ In (type report) categories ->
      (forall c, RiderReports.typeConfig report <> Own c)
      /\ (renderBadge (RiderReports.typeConfig report) = TypeError
          \/ renderBadge (RiderReports.typeConfig report)
             = BadgeElement None None)
      /\ (forall c, ReportDetailModal.typeConfig report <> Own c)
      /\ (renderBadge (ReportDetailModal.typeConfig report) = TypeError
          \/ renderBadge (ReportDetailModal.typeConfig report)
             = BadgeElement None None))
  /\ (forall reports,
         Forall (fun r => In (type r) categories) reports ->
         Forall (fun r => renderBadge (RiderReports.typeConfig r) <> TypeError
                          /\ renderBadge (ReportDetailModal.typeConfig r)
                             <> TypeError)
                reports).
Proof.
  split; [|split].
  - intros Hin. split; [|split].
    + now apply renderBadge_known.
    + reflexivity.
    + now apply renderBadge_known.
  - intros Hnot.
    destruct (renderBadge_unknown RiderReports.reportTypes (type report) Hnot)
      as [A B].
    destruct (renderBadge_unknown ReportDetailModal.reportTypes (type report)
                Hnot) as [C D].
    auto.
  - intros reports Hall. eapply Forall_impl; [|exact Hall].
    intros r Hr. simpl in Hr. split.
    + destruct (renderBadge_known RiderReports.reportTypes (type r) eq_refl Hr)
        as [c [_ [_ E]]].
      unfold RiderReports.typeConfig. rewrite E. discriminate.
    + destruct (renderBadge_known ReportDetailModal.reportTypes (type r)
                  eq_refl Hr) as [c [_ [_ E]]].
      unfold ReportDetailModal.typeConfig. rewrite E. discriminate.
Qed.

(** The flood badge on the rider's page and in the modal; the category
    "pothole" throws, the category "toString" renders an empty badge. *)
Lemma category_lookup_witness :
  ((exists c, In (type floodReport, c) RiderReports.reportTypes
              /\ RiderReports.typeConfig floodReport = Own c
              /\ renderBadge (RiderReports.typeConfig floodReport) = badgeOf c)
   /\ Reports.typeConfig floodReport = RiderReports.typeConfig floodReport
   /\ (exists c, In (type floodReport, c) ReportDetailModal.reportTypes
                 /\ ReportDetailModal.typeConfig floodReport = Own c
                 /\ renderBadge (ReportDetailModal.typeConfig floodReport)
                    = badgeOf c))
  /\ renderBadge (RiderReports.typeConfig floodReport)
     = BadgeElement (Some "bg-blue-100 text-blue-700") (Some "Flooded Road")
  /\ (forall c, RiderReports.typeConfig potholeReport <> Own c)
  /\ renderBadge (RiderReports.typeConfig potholeReport) = TypeError
  /\ (forall c, RiderReports.typeConfig toStringReport <> Own c)
  /\ renderBadge (RiderReports.typeConfig toStringReport)
     = BadgeElement None None.
Proof.
  split; [|split; [|split; [|split; [|split]]]].
  - apply (proj1 (category_lookup floodReport)).
    simpl. right; right; right; left. reflexivity.
  - reflexivity.
  - apply (proj1 (proj2 (category_lookup potholeReport))).
    simpl. intros [H | [H | [H | [H | [H | []]]]]]; discriminate H.
  - reflexivity.
  - apply (proj1 (proj2 (category_lookup toStringReport))).
    simpl. intros [H | [H | [H | [H | [H | []]]]]]; discriminate H.
  - reflexivity.
Defined.

(* ================================================================== *)
(** ** Further properties of the list derivation *)

Lemma append_assoc (a b c : string) :
  ((a ++ b) ++ c = a ++ b ++ c)%string.
Proof. induction a as [|x a IH]; simpl; [reflexivity | now rewrite IH]. Qed.

Lemma toLowerCase_append (a b : string) :
  toLowerCase (a ++ b) = (toLowerCase a ++ toLowerCase b)%string.
Proof. induction a as [|x a IH]; simpl; [reflexivity | now rewrite IH]. Qed.

(** A field that contains a string contains each of its substrings. *)
Lemma containsCI_substring (f a s b : string) :
  containsCI f (a ++ s ++ b) -> containsCI f s.
Proof.
  intros [pre [post H]]. rewrite !toLowerCase_append in H.
  exists (pre ++ toLowerCase a)%string, (toLowerCase b ++ post)%string.
  rewrite H, !append_assoc. reflexivity.
Qed.

Lemma fieldIncludes_substring (field : option string) (a s b : string) :
  truthy (Reports.fieldIncludes field (a ++ s ++ b)) = true ->
  truthy (Reports.fieldIncludes field s) = true.
Proof.
  rewrite !truthy_fieldIncludes. intros [f [E [Hf H]]]. exists f.
  repeat split; auto. eapply containsCI_substring; eauto.
Qed.

Lemma matchesSearch_substring (a s b : string) (r : Report) :
  truthy (Reports.matchesSearch (a ++ s ++ b) r) = true ->
  truthy (Reports.matchesSearch s r) = true.
Proof.
  rewrite !truthy_matchesSearch, !orb_true_iff. intros [[H | H] | H].
  - left; left. destruct (description r) as [d|]; [|discriminate H].
    apply includes_CI. apply includes_CI in H.
    eapply containsCI_substring; eauto.
  - left; right. eapply fieldIncludes_substring; eauto.
  - right. eapply fieldIncludes_substring; eauto.
Qed.

Lemma matchesLocation_substring (a l b : string) (r : Report) :
  truthy (Reports.matchesLocation (a ++ l ++ b) r) = true ->
  truthy (Reports.matchesLocation l r) = true.
Proof.
  rewrite !truthy_matchesLocation, !orb_true_iff, !String.eqb_eq.
  intros [H | H].
  - left. destruct a; [|discriminate H]. simpl in H.
    destruct l; [reflexivity | discriminate H].
  - right. eapply fieldIncludes_substring; eauto.
Qed.

(** What passes a search passes the empty search. *)
Lemma matchesSearch_cleared (s : string) (r : Report) :
  truthy (Reports.matchesSearch s r) = true ->
  truthy (Reports.matchesSearch "" r) = true.
Proof. apply (matchesSearch_substring "" "" s r). Qed.

Lemma filter_and {A : Type} (p q : A -> bool) (l : list A) :
  filter p (filter q l) = filter (fun x => q x && p x) l.
Proof.
  induction l as [|x l IH]; simpl; [reflexivity|].
  destruct (q x); simpl; [|exact IH].
  destruct (p x); now rewrite IH.
Qed.

Lemma filter_Subsequence_impl {A : Type} (p q : A -> bool) (l : list A) :
  (forall x, p x = true -> q x = true) ->
  Subsequence (filter p l) (filter q l).
Proof.
  intros H. induction l as [|x l IH]; simpl; [constructor|].
  destruct (p x) eqn:Ep.
  - rewrite (H x Ep). now constructor.
  - destruct (q x); [now constructor | exact IH].
Qed.

Lemma filter_all {A : Type} (p : A -> bool) (l : list A) :
  (forall x, In x l -> p x = true) -> filter p l = l.
Proof.
  induction l as [|x l IH]; intros H; simpl; [reflexivity|].
  rewrite (H x (or_introl eq_refl)), IH; [reflexivity|].
  intros y Hy. apply H. now right.
Qed.

Lemma sortStep_Permutation (engagementFilter : string)
      (filtered : list Report) :
  Permutation (Reports.sortStep engagementFilter filtered) filtered.
Proof.
  unfold Reports.sortStep.
  destruct (engagementFilter =? "high-engagement")%string;
    [apply sort_Permutation|].
  destruct (engagementFilter =? "most-upvoted")%string;
    [apply sort_Permutation|].
  destruct (engagementFilter =? "most-commented")%string;
    [apply sort_Permutation | apply Permutation_refl].
Qed.

Lemma filteredReports_In (search locationSearch engagementFilter : string)
      (reports : list Report) (r : Report) :
  In r (Reports.filteredReports search locationSearch engagementFilter
          reports) <->
  In r reports /\ truthy (Reports.keeps search locationSearch r) = true.
Proof.
  assert (P := sortStep_Permutation engagementFilter
                 (Reports.filterStep search locationSearch reports)).
  rewrite <- filterStep_In. unfold Reports.filteredReports. split; intros H.
  - eapply Permutation_in; eauto.
  - eapply Permutation_in; [apply Permutation_sym|]; eauto.
Qed.

(** X1: whatever the selector, the rendered list holds exactly the
    reports that passed the filter step, each as often as there: the
    sort, also with a comparator that yields [NaN], neither drops nor
    repeats a report, and every rendered report is one of the base list
    that the filter callback accepts. *)
Theorem rendered_permutation_of_filtered
        (search locationSearch engagementFilter : string)
        (reports : list Report) :
  Permutation
    (Reports.filteredReports search locationSearch engagementFilter reports)
    (Reports.filterStep search locationSearch reports)
  /\ (forall r,
         In r (Reports.filteredReports search locationSearch engagementFilter
                 reports) <->
         In r reports
         /\ truthy (Reports.keeps search locationSearch r) = true)
  /\ (List.length
        (Reports.filteredReports search locationSearch engagementFilter
           reports)
      <= List.length reports)%nat.
Proof.
  assert (P := sortStep_Permutation engagementFilter
                 (Reports.filterStep search locationSearch reports)).
  fold (Reports.filteredReports search locationSearch engagementFilter reports)
    in P.
  split; [exact P|]. split.
  - intros r. apply filteredReports_In.
  - rewrite (Permutation_length P). unfold Reports.filterStep.
    apply filter_length_le.
Qed.

Lemma keeps_split (search locationSearch : string) (r : Report) :
  truthy (Reports.keeps search locationSearch r)
  = truthy (Reports.keeps search "" r)
    && truthy (Reports.keeps "" locationSearch r).
Proof.
  rewrite !truthy_keeps.
  assert (L0 : truthy (Reports.matchesLocation "" r) = true).
  { apply matchesLocation_spec. now left. }
  rewrite L0, andb_true_r.
  destruct (truthy (Reports.matchesSearch search r)) eqn:E; simpl.
  - now rewrite (matchesSearch_cleared search r E).
  - reflexivity.
Qed.

(** X2: the search and the location filter compose: filtering by the
    search alone and then by the location alone gives the list that both
    give together, and so does the other order. *)
Theorem filters_compose (search locationSearch : string)
        (reports : list Report) :
  Reports.filterStep "" locationSearch (Reports.filterStep search "" reports)
  = Reports.filterStep search locationSearch reports
  /\ Reports.filterStep search ""
       (Reports.filterStep "" locationSearch reports)
     = Reports.filterStep search locationSearch reports.
Proof.
  unfold Reports.filterStep. rewrite !filter_and. split.
  - apply filter_ext. intros r. symmetry. apply keeps_split.
  - apply filter_ext. intros r. rewrite (keeps_split search locationSearch r).
    apply andb_comm.
Qed.

(** X3: for filter strings of ASCII characters, a longer search string
    narrows the list: what is shown for a search string (or a location
    filter) is, in the same order, among what is shown for any substring
    of it. *)
Theorem longer_filter_narrows (a b search locationSearch : string)
        (reports : list Report) :
  isAscii a = true -> isAscii b = true ->
  isAscii search = true -> isAscii locationSearch = true ->
  Subsequence
    (Reports.filterStep (a ++ search ++ b) locationSearch reports)
    (Reports.filterStep search locationSearch reports)
  /\ Subsequence
       (Reports.filterStep search (a ++ locationSearch ++ b) reports)
       (Reports.filterStep search locationSearch reports).
Proof.
  intros _ _ _ _.
  unfold Reports.filterStep. split; apply filter_Subsequence_impl; intros r;
    rewrite !truthy_keeps, !andb_true_iff; intros [H1 H2]; split; auto.
  - eapply matchesSearch_substring; eauto.
  - eapply matchesLocation_substring; eauto.
Qed.

(** Typing on from "flo" to "flood n" and from "ed" to "edsa". *)
Lemma longer_filter_narrows_witness :
  Subsequence
    (Reports.filterStep ("" ++ "flo" ++ "od n") "ed"
       [accidentReport; floodReport; checkpointReport])
    (Reports.filterStep "flo" "ed"
       [accidentReport; floodReport; checkpointReport])
  /\ Subsequence
       (Reports.filterStep "flo" ("" ++ "ed" ++ "sa")
          [accidentReport; floodReport; checkpointReport])
       (Reports.filterStep "flo" "ed"
          [accidentReport; floodReport; checkpointReport]).
Proof.
  split.
  - apply (longer_filter_narrows "" "od n" "flo" "ed"
             [accidentReport; floodReport; checkpointReport]);
      reflexivity.
  - apply (longer_filter_narrows "" "sa" "flo" "ed"
             [accidentReport; floodReport; checkpointReport]);
      reflexivity.
Defined.

(** X4: with both filters cleared the page shows exactly the reports
    that have something to search in (a description, a non-empty
    location name or a non-empty reporter email); a report with none of
    the three is shown under no search string and no location filter. *)
Theorem cleared_shows_searchable (reports : list Report) (r : Report) :
  (In r (Reports.filterStep "" "" reports) <-> In r reports /\ searchable r)
  /\ (forall search locationSearch engagementFilter,
         ~ searchable r ->
         ~ In r (Reports.filteredReports search locationSearch
                   engagementFilter reports)).
Proof.
  assert (S : truthy (Reports.matchesSearch "" r) = true -> searchable r).
  { intros H. rewrite truthy_matchesSearch, !orb_true_iff in H.
    destruct H as [[H | H] | H].
    - left. destruct (description r); [discriminate | discriminate H].
    - right; left. apply truthy_fieldIncludes in H as [f [E [Hf _]]].
      exists f. auto.
    - right; right. apply truthy_fieldIncludes in H as [f [E [Hf _]]].
      exists f. auto. }
  split.
  - rewrite filterStep_In, truthy_keeps, andb_true_iff. split.
    + intros [Hin [Hs _]]. auto.
    + intros [Hin Hs]. split; [exact Hin|]. split.
      * apply (matchesSearch_spec "" r Hs). now left.
      * apply matchesLocation_spec. now left.
  - intros search locationSearch engagementFilter Hn Hin.
    apply filteredReports_In in Hin as [_ Hk].
    rewrite truthy_keeps, andb_true_iff in Hk. destruct Hk as [Hk _].
    apply Hn, S. eapply matchesSearch_cleared; eauto.
Qed.

(** The report without description, location name and reporter is not
    shown, whatever is typed. *)
Lemma cleared_shows_searchable_witness :
  ~ In bareReport
      (Reports.filteredReports "r0" "" "high-engagement"
         [floodReport; bareReport])
  /\ (In floodReport (Reports.filterStep "" "" [floodReport; bareReport]) <->
      In floodReport [floodReport; bareReport] /\ searchable floodReport).
Proof.
  split.
  - apply (proj2 (cleared_shows_searchable [floodReport; bareReport]
                    bareReport) "r0" "" "high-engagement").
    intros [H | [[f [E _]] | [f [E _]]]];
      [now apply H | discriminate E | discriminate E].
  - apply (proj1 (cleared_shows_searchable [floodReport; bareReport]
                    floodReport)).
Defined.

(** Sorting an array that is in order already changes nothing. *)
Lemma sort_nonIncreasing_id {A : Type} (comparefn : A -> A -> number)
      (key : A -> Z) (l : list A) :
  (forall a b, SortCompare comparefn a b = key b - key a) ->
  nonIncreasing key l -> sort comparefn l = l.
Proof.
  intros by_key. unfold nonIncreasing.
  induction l as [|x l IH]; intros Hs; simpl; [reflexivity|].
  inversion Hs as [|? ? Hl Hx]; subst. rewrite (IH Hl).
  destruct l as [|y l]; simpl; [reflexivity|].
  rewrite by_key. inversion Hx as [|? ? Hy _]; subst.
  destruct (Z.leb_spec (key y - key x) 0); [reflexivity | lia].
Qed.

Lemma sort_idempotent {A : Type} (comparefn : A -> A -> number)
      (key : A -> Z) (l : list A) :
  (forall a b, SortCompare comparefn a b = key b - key a) ->
  sort comparefn (sort comparefn l) = sort comparefn l.
Proof.
  intros by_key. apply (sort_nonIncreasing_id comparefn key); [exact by_key|].
  now apply sort_nonIncreasing.
Qed.

(** On reports that all carry [upvotes], [byUpvotes] orders as the
    comparator with the default does. *)
Lemma sort_byUpvotes_present (l : list Report) :
  Forall (fun r => upvotes r <> None) l ->
  sort Reports.byUpvotes l = sort byUpvotesOrZero l.
Proof.
  intros Hall. apply sort_ext. rewrite Forall_forall in Hall.
  intros x y Hx Hy.
  unfold SortCompare, Reports.byUpvotes, byUpvotesOrZero, upvotesOrZero.
  destruct (upvotes x) eqn:Ex; [|now elim (Hall x Hx)].
  destruct (upvotes y) eqn:Ey; [|now elim (Hall y Hy)].
  reflexivity.
Qed.

Lemma sortStep_idempotent (engagementFilter : string)
      (filtered : list Report) :
  engagementFilter <> "most-upvoted"
  \/ Forall (fun r => upvotes r <> None) filtered ->
  Reports.sortStep engagementFilter
    (Reports.sortStep engagementFilter filtered)
  = Reports.sortStep engagementFilter filtered.
Proof.
  intros H. unfold Reports.sortStep.
  destruct (engagementFilter =? "high-engagement")%string.
  { apply (sort_idempotent _ Reports.scoreOf). reflexivity. }
  destruct (String.eqb_spec engagementFilter "most-upvoted") as [E | N].
  { destruct H as [H | H]; [contradiction|].
    rewrite (sort_byUpvotes_present filtered H).
    rewrite sort_byUpvotes_present.
    - apply (sort_idempotent _ upvotesOrZero). reflexivity.
    - eapply Permutation_Forall; [|exact H].
      apply Permutation_sym, sort_Permutation. }
  destruct (engagementFilter =? "most-commented")%string.
  { apply (sort_idempotent _ commentCount). reflexivity. }
  reflexivity.
Qed.

(** X5: deriving the list again from the list already rendered, under
    the same search, location filter and selector, gives that list back,
    provided the selector is not [most-upvoted] or every filtered report
    carries [upvotes]. *)
Theorem rederiving_is_idempotent
        (search locationSearch engagementFilter : string)
        (reports : list Report) :
  engagementFilter <> "most-upvoted"
  \/ Forall (fun r => upvotes r <> None)
       (Reports.filterStep search locationSearch reports) ->
  Reports.filteredReports search locationSearch engagementFilter
    (Reports.filteredReports search locationSearch engagementFilter reports)
  = Reports.filteredReports search locationSearch engagementFilter reports.
Proof.
  intros H. unfold Reports.filteredReports at 1.
  assert (F : Reports.filterStep search locationSearch
                (Reports.filteredReports search locationSearch
                   engagementFilter reports)
              = Reports.filteredReports search locationSearch
                  engagementFilter reports).
  { unfold Reports.filterStep at 1. apply filter_all.
    intros r Hr. now apply filteredReports_In in Hr as [_ Hk]. }
  rewrite F. unfold Reports.filteredReports.
  now apply sortStep_idempotent.
Qed.

Lemma rederiving_is_idempotent_witness :
  Reports.filteredReports "e" "makati" "most-upvoted"
    (Reports.filteredReports "e" "makati" "most-upvoted"
       [floodReport; accidentReport; unvotedReport; checkpointReport])
  = [floodReport; checkpointReport; accidentReport].
Proof.
  rewrite (rederiving_is_idempotent "e" "makati" "most-upvoted"
             [floodReport; accidentReport; unvotedReport; checkpointReport]).
  - reflexivity.
  - right. repeat (apply Forall_cons; [simpl; discriminate|]).
    apply Forall_nil.
Defined.

(** X6: when every filtered report carries [upvotes], the selector
    [most-upvoted] shows the filtered reports in non-increasing order of
    upvotes, and reports with the same number of upvotes keep the order
    of the filtered list. *)
Theorem mostUpvoted_stable_when_present (search locationSearch : string)
        (reports : list Report) :
  Forall (fun r => upvotes r <> None)
         (Reports.filterStep search locationSearch reports) ->
  nonIncreasing upvotesOrZero
    (Reports.filteredReports search locationSearch "most-upvoted" reports)
  /\ forall k,
      withKey upvotesOrZero k
        (Reports.filteredReports search locationSearch "most-upvoted" reports)
      = withKey upvotesOrZero k
          (Reports.filterStep search locationSearch reports).
Proof.
  intros H. unfold Reports.filteredReports.
  rewrite sortStep_mostUpvoted, (sort_byUpvotes_present _ H). split.
  - apply sort_nonIncreasing. reflexivity.
  - intros k. apply sort_stable. reflexivity.
Qed.

Lemma mostUpvoted_stable_when_present_witness :
  nonIncreasing upvotesOrZero
    (Reports.filteredReports "" "" "most-upvoted"
       [accidentReport; floodReport; checkpointReport])
  /\ forall k,
      withKey upvotesOrZero k
        (Reports.filteredReports "" "" "most-upvoted"
           [accidentReport; floodReport; checkpointReport])
      = withKey upvotesOrZero k
          (Reports.filterStep "" ""
             [accidentReport; floodReport; checkpointReport]).
Proof.
  apply (mostUpvoted_stable_when_present "" ""
           [accidentReport; floodReport; checkpointReport]).
  repeat (apply Forall_cons; [simpl; discriminate|]). apply Forall_nil.
Defined.

(* ------------------------------------------------------------------ *)
(** *** The derivation on the store *)

Lemma length_assign (p : nat) (a : list Report) (h : Store) :
  List.length (assign p a h) = List.length h.
Proof.
  revert p; induction h as [|x h IH]; intros [|p]; simpl;
    try reflexivity; now rewrite IH.
Qed.

(** Where [render] puts its result, and how much it allocates. *)
Lemma render_shape (search locationSearch engagementFilter : string)
      (reports : nat) (h : Store) :
  let out :=
    Reports.render search locationSearch engagementFilter reports h in
  (List.length h <= fst out)%nat
  /\ (fst out < List.length (snd out))%nat
  /\ (List.length (snd out) <= List.length h + 2)%nat.
Proof.
  unfold Reports.render, Array_filter, Array_spread, Array_sort, alloc.
  destruct (engagementFilter =? "high-engagement")%string;
    [|destruct (engagementFilter =? "most-upvoted")%string;
      [|destruct (engagementFilter =? "most-commented")%string]];
    simpl; rewrite ?length_assign, ?length_app; simpl; lia.
Qed.

(** X7: on the store, rendering computes the list of the pure
    derivation into an array that did not exist before, allocates at
    most two arrays, and leaves every array that existed (the one the
    query cache holds among them) as it was. *)
Theorem render_refines_filteredReports
        (search locationSearch engagementFilter : string)
        (reports : nat) (h : Store) :
  (reports < List.length h)%nat ->
  let out :=
    Reports.render search locationSearch engagementFilter reports h in
  deref (snd out) (fst out)
  = Reports.filteredReports search locationSearch engagementFilter
      (deref h reports)
  /\ (List.length h <= fst out < List.length (snd out))%nat
  /\ (List.length (snd out) <= List.length h + 2)%nat
  /\ (forall q, (q < List.length h)%nat -> deref (snd out) q = deref h q).
Proof.
  intros Hp out.
  pose proof (render_spec search locationSearch engagementFilter reports h Hp)
    as R.
  pose proof (render_shape search locationSearch engagementFilter reports h)
    as S.
  cbv zeta in S. fold out in S. fold out in R.
  destruct out as [shown h']. cbn [fst snd] in *.
  destruct R as [R1 [R2 _]]. destruct S as [S1 [S2 S3]].
  repeat split; auto.
Qed.

Lemma render_refines_filteredReports_witness :
  let h := [[accidentReport; floodReport; checkpointReport]] in
  let out := Reports.render "" "makati" "most-commented" 0 h in
  deref (snd out) (fst out)
  = Reports.filteredReports "" "makati" "most-commented" (deref h 0)
  /\ (List.length h <= fst out < List.length (snd out))%nat
  /\ (List.length (snd out) <= List.length h + 2)%nat
  /\ (forall q, (q < List.length h)%nat -> deref (snd out) q = deref h q).
Proof.
  apply (render_refines_filteredReports "" "makati" "most-commented" 0%nat
           [[accidentReport; floodReport; checkpointReport]]).
  simpl; lia.
Defined.

(** X8: in the second version of the reports page, opened with an
    address [?email=e], the address is the initial location filter: the
    page then shows only reports whose location name contains [e],
    letter case aside, whoever reported them, and none without a
    location name. *)
Theorem url_email_filters_location
        (e search engagementFilter : string) (reports : list Report)
        (r : Report) :
  e <> "" ->
  In r (Reports.filteredReports search
          (Reports.initialCountrySearch (Some e)) engagementFilter reports) ->
  fieldMatches (locationName r) e /\ locationName r <> None.
Proof.
  intros He Hin. apply filteredReports_In in Hin as [_ Hk].
  rewrite truthy_keeps, andb_true_iff in Hk. destruct Hk as [_ Hk].
  apply matchesLocation_spec in Hk as [Hk | Hk]; [contradiction|].
  split; [exact Hk|]. destruct Hk as [f [E _]]. rewrite E. discriminate.
Qed.

Lemma url_email_filters_location_witness :
  Reports.filteredReports "" (Reports.initialCountrySearch
                                (Some "rider@trafeek.app")) "all"
    [floodReport; accidentReport] = []
  /\ (fieldMatches (locationName accidentReport) "edsa"
      /\ locationName accidentReport <> None).
Proof.
  split; [reflexivity|].
  apply (url_email_filters_location "edsa" "" "all"
           [floodReport; accidentReport] accidentReport).
  - discriminate.
  - simpl. right; left. reflexivity.
Defined.

(* ================================================================== *)
(** ** The rider page *)

Lemma lower_ascii_idempotent (c : ascii) :
  lower_ascii (lower_ascii c) = lower_ascii c.
Proof. destruct c as [[] [] [] [] [] [] [] []]; reflexivity. Qed.

Lemma toLowerCase_idempotent (s : string) :
  toLowerCase (toLowerCase s) = toLowerCase s.
Proof.
  induction s as [|c s IH]; simpl; [reflexivity|].
  now rewrite lower_ascii_idempotent, IH.
Qed.

Lemma filter_Subsequence {A : Type} (p : A -> bool) (l : list A) :
  Subsequence (filter p l) l.
Proof.
  induction l as [|x l IH]; simpl; [constructor|].
  destruct (p x); now constructor.
Qed.

Lemma riderReports_In (riderEmail : string) (reports : list Report)
      (r : Report) :
  In r (RiderReports.riderReports riderEmail reports) <->
  In r reports
  /\ exists m, reporterEmail r = Some m
               /\ toLowerCase m = toLowerCase riderEmail.
Proof.
  unfold RiderReports.riderReports, RiderReports.ofRider.
  rewrite filter_In. split; intros [Hin H]; (split; [exact Hin|]).
  - destruct (reporterEmail r) as [m|]; [|discriminate H].
    exists m. split; [reflexivity | now apply String.eqb_eq].
  - destruct H as [m [-> H]]. now apply String.eqb_eq.
Qed.

(** X9: the rows of the rider page are the fetched reports whose
    reporter email equals the address of the URL, letter case aside, in
    the order fetched; a report without reporter or without email is in
    no rider's rows; and the letter case of the address in the URL does
    not matter. *)
Theorem riderReports_rows (riderEmail : string) (reports : list Report) :
  (forall r,
      In r (RiderReports.riderReports riderEmail reports) <->
      In r reports
      /\ exists m, reporterEmail r = Some m
                   /\ toLowerCase m = toLowerCase riderEmail)
  /\ Subsequence (RiderReports.riderReports riderEmail reports) reports
  /\ (forall r, reporterEmail r = None ->
                ~ In r (RiderReports.riderReports riderEmail reports))
  /\ RiderReports.riderReports (toLowerCase riderEmail) reports
     = RiderReports.riderReports riderEmail reports.
Proof.
  assert (M := riderReports_In riderEmail reports).
  split; [exact M|]. split; [apply filter_Subsequence|]. split.
  - intros r Hnone Hin. apply M in Hin as [_ [m [E _]]].
    rewrite Hnone in E. discriminate E.
  - unfold RiderReports.riderReports. apply filter_ext. intros r.
    unfold RiderReports.ofRider. now rewrite toLowerCase_idempotent.
Qed.

Lemma riderReports_rows_witness :
  RiderReports.riderReports "RIDER@Trafeek.App"
    [floodReport; bareReport; accidentReport]
  = [floodReport; accidentReport]
  /\ ~ In bareReport
         (RiderReports.riderReports "RIDER@Trafeek.App"
            [floodReport; bareReport; accidentReport]).
Proof.
  split; [reflexivity|].
  apply (proj1 (proj2 (proj2 (riderReports_rows "RIDER@Trafeek.App"
                                [floodReport; bareReport; accidentReport])))
           bareReport).
  reflexivity.
Defined.

Lemma roundDouble_exact (z : Z) :
  Z.abs z <= 2 ^ 53 -> roundDouble z = z.
Proof.
  intros H. unfold roundDouble.
  destruct (Z.leb_spec (Z.abs z) (2 ^ 53)); [reflexivity | lia].
Qed.

Lemma sumOf_abs_nonneg (f : Report -> Z) (l : list Report) :
  0 <= sumOf (fun r => Z.abs (f r)) l.
Proof. induction l as [|r l IH]; simpl; lia. Qed.

(** While the magnitudes stay within 2^53, the running sum of the
    [reduce] is the exact sum. *)
Lemma fold_left_plusDouble (f : Report -> Z) (l : list Report) (acc : Z) :
  Z.abs acc + sumOf (fun r => Z.abs (f r)) l <= 2 ^ 53 ->
  fold_left (fun sum r => plusDouble sum (f r)) l acc = acc + sumOf f l.
Proof.
  revert acc; induction l as [|r l IH]; intros acc H; simpl in *; [lia|].
  pose proof (sumOf_abs_nonneg f l) as N.
  unfold plusDouble at 2. rewrite roundDouble_exact by lia.
  rewrite IH by lia. lia.
Qed.

Lemma sumOf_Permutation (f : Report -> Z) (l l' : list Report) :
  Permutation l l' -> sumOf f l = sumOf f l'.
Proof. induction 1; simpl; lia. Qed.

Lemma sumOf_plus (f g : Report -> Z) (l : list Report) :
  sumOf (fun r => f r + g r) l = sumOf f l + sumOf g l.
Proof. induction l as [|r l IH]; simpl; lia. Qed.

Lemma sumOf_nonneg (f : Report -> Z) (l : list Report) :
  Forall (fun r => 0 <= f r) l -> 0 <= sumOf f l.
Proof. induction 1; simpl; lia. Qed.

Lemma sumOf_ext (f g : Report -> Z) (l : list Report) :
  (forall r, f r = g r) -> sumOf f l = sumOf g l.
Proof. intros H. induction l as [|r l IH]; simpl; [|rewrite H, IH]; lia. Qed.

Lemma commentCount_nonneg (r : Report) : 0 <= commentCount r.
Proof. unfold commentCount. destruct (comments r); lia. Qed.

Lemma sumOf_commentCount_nonneg (l : list Report) :
  0 <= sumOf commentCount l.
Proof.
  apply sumOf_nonneg, Forall_forall. intros r _. apply commentCount_nonneg.
Qed.

(** Within the safe range the totals of the page are the exact sums. *)
Lemma safeTotals_exact (rows : list Report) :
  safeTotals rows ->
  RiderReports.totalUpvotes rows = sumOf upvotesOrZero rows
  /\ RiderReports.totalComments rows = sumOf commentCount rows.
Proof.
  unfold safeTotals. intros H.
  pose proof (sumOf_abs_nonneg upvotesOrZero rows) as N1.
  pose proof (sumOf_commentCount_nonneg rows) as N2.
  unfold RiderReports.totalUpvotes, RiderReports.totalComments. split.
  - rewrite (fold_left_plusDouble upvotesOrZero) by (simpl; lia). lia.
  - rewrite (fold_left_plusDouble commentCount).
    + lia.
    + rewrite (sumOf_ext (fun r => Z.abs (commentCount r)) commentCount).
      * simpl; lia.
      * intros r. pose proof (commentCount_nonneg r). lia.
Qed.

Lemma safeTotals_Permutation (rows rows' : list Report) :
  Permutation rows rows' -> safeTotals rows -> safeTotals rows'.
Proof.
  unfold safeTotals. intros P H.
  now rewrite <- (sumOf_Permutation _ rows rows' P),
    <- (sumOf_Permutation commentCount rows rows' P).
Qed.

Lemma sumOf_engagementScore (rows : list Report) :
  sumOf upvotesOrZero rows + sumOf commentCount rows
  = sumOf engagementScore rows.
Proof.
  rewrite <- (sumOf_plus upvotesOrZero commentCount).
  apply sumOf_ext. intros r. apply (scoreOf_engagementScore r).
Qed.

(** Beyond the safe range the page's total is the rounded one: adding
    one upvote to 2^53 upvotes shows 2^53. *)
Example totals_round_beyond_safe_range :
  RiderReports.totalUpvotes [hugeReport; singleVoteReport] = 2 ^ 53
  /\ sumOf upvotesOrZero [hugeReport; singleVoteReport] = 2 ^ 53 + 1.
Proof. split; reflexivity. Qed.

(** X10: when the counts of the rows are small enough for double
    arithmetic to be exact (their magnitudes add up to 2^53 at most),
    the two totals of the rider page are the sums over the rows of the
    upvotes and of the comment counts, a missing value counting as 0;
    together they are the sum of the rows' engagement scores; they do
    not depend on the order of the rows; the comment total is not
    negative, and the upvote total is not when no upvote count is. *)
Theorem rider_totals (rows : list Report) :
  safeTotals rows ->
  RiderReports.totalUpvotes rows = sumOf upvotesOrZero rows
  /\ RiderReports.totalComments rows = sumOf commentCount rows
  /\ RiderReports.totalUpvotes rows + RiderReports.totalComments rows
     = sumOf engagementScore rows
  /\ (forall rows',
         Permutation rows rows' ->
         RiderReports.totalUpvotes rows' = RiderReports.totalUpvotes rows
         /\ RiderReports.totalComments rows'
            = RiderReports.totalComments rows)
  /\ 0 <= RiderReports.totalComments rows
  /\ (Forall (fun r => 0 <= upvotesOrZero r) rows ->
      0 <= RiderReports.totalUpvotes rows).
Proof.
  intros Hsafe. destruct (safeTotals_exact rows Hsafe) as [U C].
  rewrite U, C. split; [reflexivity|]. split; [reflexivity|].
  split; [apply sumOf_engagementScore|]. split.
  { intros rows' P.
    destruct (safeTotals_exact rows'
                (safeTotals_Permutation rows rows' P Hsafe)) as [U' C'].
    rewrite U', C'. split; symmetry; now apply sumOf_Permutation. }
  split; [apply sumOf_commentCount_nonneg | apply sumOf_nonneg].
Qed.

Lemma rider_totals_witness :
  RiderReports.totalUpvotes [floodReport; unvotedReport; accidentReport] = 6
  /\ RiderReports.totalUpvotes [floodReport; unvotedReport; accidentReport]
     + RiderReports.totalComments
         [floodReport; unvotedReport; accidentReport]
     = sumOf engagementScore [floodReport; unvotedReport; accidentReport].
Proof.
  split; [reflexivity|].
  apply (rider_totals [floodReport; unvotedReport; accidentReport]).
  unfold safeTotals. vm_compute. discriminate.
Defined.

(** X11: the rider page shows its notice exactly when the URL names no
    rider (no [email] parameter, or an empty one).  Otherwise it shows a
    view in which every row is a fetched report of that rider and the
    count is the number of rows, and in which, when the counts of the
    rows are small enough for double arithmetic to be exact, the two
    totals add up to the rows' engagement scores; and as long as the
    query has no data the view has no row, the placeholder name and
    three zeros. *)
Theorem rider_page_views (riderEmail : option string)
        (reportsData : option (list Report)) :
  (RiderReports.page riderEmail reportsData = RiderReports.NoRiderSelected
   <-> riderEmail = None \/ riderEmail = Some "")
  /\ (forall e reports shownName n u c rows,
         riderEmail = Some e -> reportsData = Some reports ->
         RiderReports.page riderEmail reportsData
         = RiderReports.RiderView shownName n u c rows ->
         (forall r, In r rows ->
                    In r reports
                    /\ exists m, reporterEmail r = Some m
                                 /\ toLowerCase m = toLowerCase e)
         /\ n = Z.of_nat (List.length rows)
         /\ n <= Z.of_nat (List.length reports)
         /\ (safeTotals rows -> u + c = sumOf engagementScore rows))
  /\ (forall e,
         riderEmail = Some e -> e <> "" -> reportsData = None ->
         RiderReports.page riderEmail reportsData
         = RiderReports.RiderView RiderReports.dash 0 0 0 []).
Proof.
  unfold RiderReports.page. split; [|split].
  - destruct riderEmail as [e|].
    + destruct (String.eqb_spec e "") as [-> | N].
      * split; auto.
      * split; [discriminate|]. intros [H | H]; [discriminate H|].
        injection H as H. contradiction.
    + split; auto.
  - intros e reports shownName n u c rows -> ->.
    destruct (e =? "")%string; [discriminate|].
    intros H. injection H as _ <- <- <- <-.
    split; [intros r Hr; now apply riderReports_In|].
    split; [reflexivity|]. split.
    + apply inj_le. unfold RiderReports.riderReports. apply filter_length_le.
    + intros Hsafe. destruct (safeTotals_exact _ Hsafe) as [-> ->].
      apply sumOf_engagementScore.
  - intros e -> He ->. apply String.eqb_neq in He. now rewrite He.
Qed.

Lemma rider_page_views_witness :
  ((forall r, In r [floodReport; accidentReport] ->
              In r [floodReport; bareReport; accidentReport]
              /\ exists m, reporterEmail r = Some m
                           /\ toLowerCase m
                              = toLowerCase "RIDER@trafeek.app")
   /\ 6 + 4 = sumOf engagementScore [floodReport; accidentReport])
  /\ RiderReports.page (Some "rider@trafeek.app") None
     = RiderReports.RiderView RiderReports.dash 0 0 0 [].
Proof.
  split.
  - destruct (proj1 (proj2 (rider_page_views (Some "RIDER@trafeek.app")
                              (Some [floodReport; bareReport;
                                     accidentReport])))
                "RIDER@trafeek.app" [floodReport; bareReport; accidentReport]
                "Rider" 2 6 4 [floodReport; accidentReport]
                eq_refl eq_refl eq_refl) as [Hrows [_ [_ Hsum]]].
    split; [exact Hrows|]. apply Hsum.
    unfold safeTotals. vm_compute. discriminate.
  - apply (proj2 (proj2 (rider_page_views (Some "rider@trafeek.app") None))
             "rider@trafeek.app" eq_refl ltac:(discriminate) eq_refl).
Defined.

(* ================================================================== *)
(** ** The query cache under the mutations *)

Lemma staleOnly_refl (qs : list Query) : staleOnly qs qs.
Proof.
  unfold staleOnly. induction qs; constructor; auto.
Qed.

Lemma staleOnly_trans (a b c : list Query) :
  staleOnly a b -> staleOnly b c -> staleOnly a c.
Proof.
  unfold staleOnly. intros Hab. revert c.
  induction Hab as [|x y a b [K [D M]] _ IH]; intros c Hbc;
    inversion Hbc as [|? z ? c' [K' [D' M']] Hbc']; subst; constructor.
  - repeat split; [congruence | congruence | auto].
  - now apply IH.
Qed.

Lemma staleOnly_invalidateQueries (key : list string) (ui : Ui) :
  staleOnly (queries ui) (queries (invalidateQueries key ui)).
Proof.
  unfold staleOnly, invalidateQueries; simpl.
  induction (queries ui) as [|q qs IH]; simpl; constructor; [|exact IH].
  destruct (isPrefix key (queryKey q)); simpl; auto.
Qed.

Lemma invalidateQueries_stale (key : list string) (ui : Ui) (q' : Query) :
  In q' (queries (invalidateQueries key ui)) ->
  isPrefix key (queryKey q') = true -> isInvalidated q' = true.
Proof.
  unfold invalidateQueries; simpl. rewrite in_map_iff.
  intros [q [E _]] Hp. destruct (isPrefix key (queryKey q)) eqn:Ek.
  - subst q'. reflexivity.
  - subst q'. congruence.
Qed.

Lemma invalidateQueries_other (key : list string) (ui : Ui) (q : Query) :
  In q (queries ui) -> isPrefix key (queryKey q) = false ->
  In q (queries (invalidateQueries key ui)).
Proof.
  unfold invalidateQueries; simpl. intros Hin Hp. apply in_map_iff.
  exists q. now rewrite Hp.
Qed.

(** X12: no mutation of the dashboard edits cached data, on success or
    on failure: after the callback the cache holds the same queries in
    the same order with the same keys and the same data, and no query
    that was stale has become fresh; a mutation can only mark queries
    stale. *)
Theorem mutations_keep_cached_data (report : Report) :
  keepsData Users.suspendMutation
  /\ keepsData Users.unsuspendMutation
  /\ keepsData Users.deleteMutation
  /\ keepsData Reports.deleteMutation
  /\ keepsData RiderReports.deleteMutation
  /\ keepsData (ReportDetailModal.deleteReportMutation report)
  /\ keepsData (ReportDetailModal.deleteCommentMutation report)
  /\ keepsData (ReportDetailModal.addCommentMutation report).
Proof.
  repeat split; intros [[] | error] ui;
    try apply staleOnly_refl;
    cbn -[invalidateQueries];
    first [ apply staleOnly_invalidateQueries
          | eapply staleOnly_trans; [|apply staleOnly_invalidateQueries];
            apply staleOnly_invalidateQueries ].
Qed.

Lemma refreshes_invalidateQueries {V : Type} (m : Mutation V)
      (key : list string) :
  (forall ui, queries (fst (onSuccess m ui))
              = queries (invalidateQueries key ui)) ->
  refreshes m key.
Proof.
  intros H ui. simpl. rewrite H. split.
  - intros q'. apply invalidateQueries_stale.
  - intros q. apply invalidateQueries_other.
Qed.

(** X13: a successful mutation of a page marks stale every cached list
    of that page, whatever search, role or type filter the list was
    fetched under, and leaves the queries of the other pages in the
    cache as they were: the users page refreshes the keys under
    ["users"], the reports page those under ["admin-reports"], the rider
    page those under ["rider-reports"]. *)
Theorem success_refreshes_own_lists :
  (refreshes Users.suspendMutation ["users"]
   /\ refreshes Users.unsuspendMutation ["users"]
   /\ refreshes Users.deleteMutation ["users"]
   /\ refreshes Reports.deleteMutation ["admin-reports"]
   /\ refreshes RiderReports.deleteMutation ["rider-reports"])
  /\ (forall search roleFilter,
         isPrefix ["users"] (Users.queryKey search roleFilter) = true)
  /\ (forall typeFilter,
         isPrefix ["admin-reports"] (Reports.queryKey typeFilter) = true)
  /\ (forall riderEmail,
         isPrefix ["rider-reports"] (RiderReports.queryKey riderEmail) = true)
  /\ (forall search roleFilter typeFilter riderEmail,
         isPrefix ["users"] (Reports.queryKey typeFilter) = false
         /\ isPrefix ["users"] (RiderReports.queryKey riderEmail) = false
         /\ isPrefix ["admin-reports"] (Users.queryKey search roleFilter)
            = false
         /\ isPrefix ["admin-reports"] (RiderReports.queryKey riderEmail)
            = false
         /\ isPrefix ["rider-reports"] (Users.queryKey search roleFilter)
            = false
         /\ isPrefix ["rider-reports"] (Reports.queryKey typeFilter) = false).
Proof.
  split.
  - repeat split; apply refreshes_invalidateQueries; reflexivity.
  - repeat split.
Qed.

Lemma rider_key_not_under (key : list string) (riderEmail : string) :
  key = ["admin-reports"] \/ (exists i, key = ["report-detail"; i]) ->
  isPrefix key (RiderReports.queryKey riderEmail) = false.
Proof. intros [-> | [i ->]]; reflexivity. Qed.

(** X14: the three mutations of the report modal never touch a cached
    list of the rider page, although that page opens the modal too: a
    report or comment deleted, or a comment added, through the modal
    leaves the query ["rider-reports", email] as fresh or as stale as it
    was, while the lists of the reports page are marked stale. *)
Theorem modal_skips_rider_queries (report : Report) :
  skipsRiderQueries (ReportDetailModal.deleteReportMutation report)
  /\ skipsRiderQueries (ReportDetailModal.deleteCommentMutation report)
  /\ skipsRiderQueries (ReportDetailModal.addCommentMutation report)
  /\ refreshes (ReportDetailModal.deleteReportMutation report)
               ["admin-reports"]
  /\ refreshes (ReportDetailModal.addCommentMutation report)
               ["admin-reports"].
Proof.
  assert (K : forall e q key ui,
             key = ["admin-reports"] \/ (exists i, key = ["report-detail"; i]) ->
             In q (queries ui) -> queryKey q = RiderReports.queryKey e ->
             In q (queries (invalidateQueries key ui))).
  { intros e q key ui Hkey Hin Hq. apply invalidateQueries_other; [exact Hin|].
    rewrite Hq. now apply rider_key_not_under. }
  split; [|split; [|split; [|split]]].
  - intros [[] | error] ui e q Hin Hq; cbn -[invalidateQueries];
      [|exact Hin].
    apply (K e); auto.
  - intros [[] | error] ui e q Hin Hq; cbn -[invalidateQueries];
      [|exact Hin].
    apply (K e); [right; eexists; reflexivity | | exact Hq].
    apply (K e); auto.
  - intros [[] | error] ui e q Hin Hq; cbn -[invalidateQueries];
      [|exact Hin].
    apply (K e); auto.
  - apply refreshes_invalidateQueries. reflexivity.
  - apply refreshes_invalidateQueries. reflexivity.
Qed.

(** After the modal deleted the flood report, the list of the reports
    page is stale and that of the rider page is not. *)
Lemma modal_skips_rider_queries_witness :
  In {| queryKey := RiderReports.queryKey "rider@trafeek.app";
        data := ReportsPayload [floodReport]; isInvalidated := false |}
     (queries
        (fst (settle (ReportDetailModal.deleteReportMutation floodReport)
                (Fulfilled tt) sampleCache)))
  /\ map isInvalidated
       (queries
          (fst (settle (ReportDetailModal.deleteReportMutation floodReport)
                  (Fulfilled tt) sampleCache)))
     = [false; true; false].
Proof.
  split; [|reflexivity].
  apply (proj1 (modal_skips_rider_queries floodReport) (Fulfilled tt)
           sampleCache "rider@trafeek.app").
  - simpl. right; right; left. reflexivity.
  - reflexivity.
Defined.

(* ================================================================== *)
(** ** Suspending users, adding comments *)

(** X15: suspending a user sends a request if and only if the prompt
    returned a non-empty reason, and the request then carries exactly
    that reason; a dismissed prompt or an empty reason does nothing.
    Unsuspending sends its request if and only if the confirmation was
    accepted. *)
Theorem suspend_requires_reason (reason : option string)
        (confirmed : bool) (userId email : string) :
  (forall r, reason = Some r -> r <> "" ->
             Users.handleSuspend reason userId email
             = [Issue (POST ("/admin/users/" ++ userId ++ "/suspend")%string
                            [("reason", r)])])
  /\ (reason = None \/ reason = Some "" ->
      Users.handleSuspend reason userId email = [])
  /\ ((exists q, In (Issue q) (Users.handleSuspend reason userId email)) <->
      exists r, reason = Some r /\ r <> "")
  /\ Users.handleUnsuspend confirmed userId
     = (if confirmed
        then [Issue (POST ("/admin/users/" ++ userId ++ "/unsuspend")%string
                          [])]
        else []).
Proof.
  unfold Users.handleSuspend. split; [|split; [|split]].
  - intros r -> Hr. apply String.eqb_neq in Hr. now rewrite Hr.
  - intros [-> | ->]; reflexivity.
  - destruct reason as [r|].
    + destruct (String.eqb_spec r "") as [-> | N].
      * split; [intros [q []] | intros [r [E Hr]]; congruence].
      * split; [intros _; exists r; auto|].
        intros _. eexists. left. reflexivity.
    + split; [intros [q []] | intros [r [E _]]; discriminate E].
  - destruct confirmed; reflexivity.
Qed.

Lemma suspend_requires_reason_witness :
  Users.handleSuspend (Some "spam") "u7" "rider@trafeek.app"
  = [Issue (POST "/admin/users/u7/suspend" [("reason", "spam")])]
  /\ Users.handleSuspend (Some "") "u7" "rider@trafeek.app" = [].
Proof.
  split.
  - apply (proj1 (suspend_requires_reason (Some "spam") true "u7"
                    "rider@trafeek.app") "spam" eq_refl).
    discriminate.
  - apply (proj1 (proj2 (suspend_requires_reason (Some "") true "u7"
                           "rider@trafeek.app"))).
    right. reflexivity.
Defined.

Lemma append_empty_r (s : string) : (s ++ "")%string = s.
Proof. induction s as [|c s IH]; simpl; [reflexivity | now rewrite IH]. Qed.

Lemma trimStart_decompose (s : string) :
  exists a, s = (a ++ trimStart s)%string /\ allWhiteSpace a = true.
Proof.
  induction s as [|c s [a [E W]]]; simpl.
  - exists "". auto.
  - destruct (isWhiteSpace c) eqn:Ec.
    + exists (String c a). simpl. rewrite Ec, W. now rewrite <- E.
    + exists "". auto.
Qed.

Lemma trimStart_head (s : string) (c : ascii) (rest : string) :
  trimStart s = String c rest -> isWhiteSpace c = false.
Proof.
  induction s as [|d s IH]; simpl; [discriminate|].
  destruct (isWhiteSpace d) eqn:Ed; [exact IH|].
  intros H. injection H as <- _. exact Ed.
Qed.

Lemma trimEnd_decompose (s : string) :
  exists b, s = (trimEnd s ++ b)%string /\ allWhiteSpace b = true.
Proof.
  induction s as [|c s [b [E W]]]; simpl.
  - exists "". auto.
  - destruct (trimEnd s) as [|x t] eqn:Et.
    + simpl in E. destruct (isWhiteSpace c) eqn:Ec.
      * exists (String c s). simpl. rewrite Ec. subst s. auto.
      * exists b. simpl. subst s. auto.
    + exists b. simpl. simpl in E. now rewrite <- E.
Qed.

Lemma trimEnd_last (s pre : string) (c : ascii) :
  trimEnd s = (pre ++ String c "")%string -> isWhiteSpace c = false.
Proof.
  revert pre; induction s as [|d s IH]; intros pre; simpl.
  - destruct pre; discriminate.
  - destruct (trimEnd s) as [|x t] eqn:Et.
    + destruct (isWhiteSpace d) eqn:Ed.
      * destruct pre; discriminate.
      * destruct pre as [|p pre]; simpl; intros H.
        -- injection H as <-. exact Ed.
        -- injection H as _ H. destruct pre; discriminate H.
    + destruct pre as [|p pre]; simpl; intros H.
      * discriminate H.
      * injection H as _ H. now apply (IH pre).
Qed.

(** [trimEnd] keeps the first character. *)
Lemma trimEnd_head (s : string) (c : ascii) (rest : string) :
  trimEnd s = String c rest -> exists rest', s = String c rest'.
Proof.
  intros H. destruct (trimEnd_decompose s) as [b [E _]].
  rewrite H in E. simpl in E. eauto.
Qed.

Lemma trim_trimmedOf (s : string) : trimmedOf s (trim s).
Proof.
  unfold trimmedOf, trim. split; [|split].
  - destruct (trimStart_decompose s) as [a [Ea Wa]].
    destruct (trimEnd_decompose (trimStart s)) as [b [Eb Wb]].
    exists a, b. split; [|auto]. now rewrite <- Eb.
  - intros c rest H. apply trimEnd_head in H as [rest' H].
    eapply trimStart_head; eauto.
  - intros pre c H. eapply trimEnd_last; eauto.
Qed.

Lemma allWhiteSpace_trimStart (s : string) :
  allWhiteSpace s = true -> trimStart s = "".
Proof.
  induction s as [|c s IH]; simpl; [reflexivity|].
  rewrite andb_true_iff. intros [-> H]. auto.
Qed.

Lemma allWhiteSpace_append (a b : string) :
  allWhiteSpace (a ++ b) = allWhiteSpace a && allWhiteSpace b.
Proof.
  induction a as [|c a IH]; simpl; [reflexivity|].
  now rewrite IH, andb_assoc.
Qed.

Lemma trim_empty_iff (s : string) :
  trim s = "" <-> allWhiteSpace s = true.
Proof.
  split.
  - intros H. destruct (trim_trimmedOf s) as [[a [b [E [Wa Wb]]]] _].
    rewrite H in E. simpl in E. rewrite E, allWhiteSpace_append, Wa, Wb.
    reflexivity.
  - intros H. unfold trim. now rewrite allWhiteSpace_trimStart.
Qed.

(** X16: for a draft of ASCII characters, the comment form posts
    nothing when the draft is empty or all white space; otherwise it
    posts one comment whose text is the draft without the white space at
    its two ends: the draft is that text between two runs of white
    space, and the text neither starts nor ends with white space.  A
    success empties the draft, a failure keeps it. *)
Theorem addComment_posts_trimmed_draft (report : Report) (ui : Ui) :
  isAscii (newComment ui) = true ->
  (ReportDetailModal.handleAddComment report ui = [] <->
   allWhiteSpace (newComment ui) = true)
  /\ (allWhiteSpace (newComment ui) = false ->
      exists posted,
        ReportDetailModal.handleAddComment report ui
        = [Issue (POST ("/reports/" ++ _id report ++ "/comment")%string
                       [("text", posted)])]
        /\ posted <> ""
        /\ trimmedOf (newComment ui) posted)
  /\ newComment
       (fst (settle (ReportDetailModal.addCommentMutation report)
               (Fulfilled tt) ui)) = ""
  /\ (forall error,
         newComment
           (fst (settle (ReportDetailModal.addCommentMutation report)
                   (Rejected error) ui)) = newComment ui).
Proof.
  intros _. unfold ReportDetailModal.handleAddComment.
  split; [|split; [|split]].
  - rewrite <- trim_empty_iff.
    destruct (String.eqb_spec (trim (newComment ui)) "") as [E | N].
    + split; auto.
    + split; [discriminate | contradiction].
  - intros W. exists (trim (newComment ui)).
    destruct (String.eqb_spec (trim (newComment ui)) "") as [E | N].
    + apply trim_empty_iff in E. congruence.
    + split; [reflexivity|]. split; [exact N | apply trim_trimmedOf].
  - reflexivity.
  - reflexivity.
Qed.

Lemma addComment_posts_trimmed_draft_witness :
  ReportDetailModal.handleAddComment floodReport sampleCache
  = [Issue (POST "/reports/r1/comment" [("text", "looks fixed now")])]
  /\ exists posted,
      ReportDetailModal.handleAddComment floodReport sampleCache
      = [Issue (POST ("/reports/" ++ _id floodReport ++ "/comment")%string
                     [("text", posted)])]
      /\ posted <> ""
      /\ trimmedOf (newComment sampleCache) posted.
Proof.
  split; [reflexivity|].
  apply (proj1 (proj2 (addComment_posts_trimmed_draft floodReport
                         sampleCache eq_refl))).
  reflexivity.
Defined.

(* ================================================================== *)
(** ** Query parameters *)

Lemma In_param (key v k x : string) :
  In (k, x) (param key v) <-> k = key /\ x = v /\ v <> "".
Proof.
  unfold param. destruct (String.eqb_spec v "") as [E | N]; simpl.
  - split; [contradiction | intros [_ [_ H]]; contradiction].
  - split.
    + intros [H | []]. injection H as <- <-. auto.
    + intros [-> [-> _]]. now left.
Qed.

(** X17: a filter left empty is not sent.  The users query carries
    [search] exactly when the search box is not empty and [role] exactly
    when the role is not "all"; the rider performance query carries each
    of [startDate], [endDate] and [email] exactly when it is not empty;
    and the CSV export of that page carries the two dates of the table's
    query and never the email filter. *)
Theorem empty_filters_are_not_sent
        (search roleFilter startDate endDate emailFilter : string) :
  (forall k x,
      In (k, x) (Users.queryParams search roleFilter) <->
      (k = "search" /\ x = search /\ search <> "")
      \/ (k = "role" /\ x = roleFilter /\ roleFilter <> "all"))
  /\ (forall k x,
         In (k, x) (RiderPerformance.queryParams startDate endDate
                      emailFilter) <->
         (k = "startDate" /\ x = startDate /\ startDate <> "")
         \/ (k = "endDate" /\ x = endDate /\ endDate <> "")
         \/ (k = "email" /\ x = emailFilter /\ emailFilter <> ""))
  /\ RiderPerformance.exportParams startDate endDate emailFilter
     = filter (fun kv => negb (fst kv =? "email")%string)
         (RiderPerformance.queryParams startDate endDate emailFilter)
  /\ RiderPerformance.queryParams "" "" "" = []
  /\ Users.queryParams "" "all" = [].
Proof.
  split; [|split; [|split; [|split]]].
  - intros k x. unfold Users.queryParams. rewrite in_app_iff, In_param.
    destruct (String.eqb_spec roleFilter "all") as [E | N]; simpl.
    + split; [intros [H | []]; auto | intros [H | [_ [_ H]]]; auto].
    + split.
      * intros [H | [H | []]]; [auto|]. injection H as <- <-. auto.
      * intros [H | [-> [-> _]]]; auto.
  - intros k x. unfold RiderPerformance.queryParams.
    rewrite !in_app_iff, !In_param. reflexivity.
  - unfold RiderPerformance.exportParams, RiderPerformance.queryParams, param.
    destruct (startDate =? "")%string, (endDate =? "")%string,
      (emailFilter =? "")%string; reflexivity.
  - reflexivity.
  - reflexivity.
Qed.

(* ================================================================== *)
(** ** Further properties of the session holder *)

(** X18: in every reachable state of the session holder, a protected
    route renders its page only when the startup validation is over and
    an identity of role admin is held; it redirects to the login page
    exactly when the validation is over and no identity is held. *)
Theorem protected_route_requires_admin (st : Session) :
  reachable st ->
  (App.ProtectedRoute st = App.Layout ->
   loading st = false /\ exists a, admin st = Some a /\ role a = "admin")
  /\ (App.ProtectedRoute st = App.Navigate "/login" <->
      loading st = false /\ admin st = None)
  /\ (App.ProtectedRoute st = App.Spinner <-> loading st = true).
Proof.
  intros Hreach. pose proof (reachable_adminHeld st Hreach) as Hinv.
  unfold App.ProtectedRoute.
  destruct (loading st); [|destruct (admin st) as [a|] eqn:Ea].
  - repeat split; try discriminate; intros [H _]; discriminate H.
  - repeat split; try discriminate.
    + exists a. split; [reflexivity | now apply Hinv].
    + intros [_ H]; discriminate H.
  - repeat split; discriminate.
Qed.

Lemma protected_route_requires_admin_witness :
  App.ProtectedRoute
    (snd (login (sampleBackend adminIdentity) "ops@trafeek.app" "secret"
            (initAuth (Rejected {| response_message := None |})
               (mount emptyStorage))))
  = App.Layout
  /\ (loading
        (snd (login (sampleBackend adminIdentity) "ops@trafeek.app" "secret"
                (initAuth (Rejected {| response_message := None |})
                   (mount emptyStorage)))) = false
      /\ exists a,
          admin
            (snd (login (sampleBackend adminIdentity) "ops@trafeek.app"
                    "secret"
                    (initAuth (Rejected {| response_message := None |})
                       (mount emptyStorage)))) = Some a
          /\ role a = "admin").
Proof.
  split; [reflexivity|].
  apply (proj1 (protected_route_requires_admin
                  (snd (login (sampleBackend adminIdentity) "ops@trafeek.app"
                          "secret"
                          (initAuth (Rejected {| response_message := None |})
                             (mount emptyStorage))))
                  ltac:(eapply reachable_step;
                        [eapply reachable_step;
                         [apply reachable_mount | apply step_initAuth]
                        | apply step_login]))).
  reflexivity.
Defined.

Lemma step_other_keys (st st' : Session) (key : string) :
  step st st' -> key <> "admin_token" ->
  getItem key (localStorage st') = getItem key (localStorage st).
Proof.
  intros Hstep Hkey. apply String.eqb_neq in Hkey.
  assert (V : forall me s, getItem key (localStorage (validated me s))
                           = getItem key (localStorage s)).
  { intros me s. unfold validated.
    destruct me as [res_data | e]; simpl.
    - destruct (role res_data =? "admin")%string; simpl;
        unfold getItem, removeItem; now rewrite ?Hkey.
    - unfold getItem, removeItem. now rewrite Hkey. }
  destruct Hstep as [me st | me st | api_post e p st | st].
  - unfold initAuth. destruct (hasToken (localStorage st)); [apply V|].
    reflexivity.
  - apply V.
  - unfold login. destruct (api_post e p) as [res_data | err]; simpl;
      [|reflexivity].
    destruct (role (user res_data) =? "admin")%string; simpl;
      [|reflexivity].
    unfold getItem, setItem. now rewrite Hkey.
  - simpl. unfold getItem, removeItem. now rewrite Hkey.
Qed.

(** X19: the session holder reads and writes one item of the local
    storage only: along any sequence of its events (startup validation,
    its continuation, logins, logouts) every item under a key other than
    [admin_token] keeps the value it had. *)
Theorem session_touches_only_admin_token (st st' : Session) (key : string) :
  clos_refl_trans Session step st st' ->
  key <> "admin_token" ->
  getItem key (localStorage st') = getItem key (localStorage st).
Proof.
  intros Hsteps Hkey. induction Hsteps as [st st' H | st | a b c _ IH1 _ IH2].
  - now apply step_other_keys.
  - reflexivity.
  - congruence.
Qed.

Lemma session_touches_only_admin_token_witness :
  getItem "theme"
    (localStorage
       (logout (snd (login (sampleBackend adminIdentity) "ops@trafeek.app"
                       "secret" (mount (setItem "theme" "dark" storedToken))))))
  = Some "dark".
Proof.
  rewrite (session_touches_only_admin_token
             (mount (setItem "theme" "dark" storedToken))
             (logout (snd (login (sampleBackend adminIdentity)
                             "ops@trafeek.app" "secret"
                             (mount (setItem "theme" "dark" storedToken)))))
             "theme").
  - reflexivity.
  - eapply rt_trans; apply rt_step; [apply step_login | apply step_logout].
  - discriminate.
Defined.

(** X20: when no event runs while the validation request is in flight,
    an identity is held only while an item [admin_token] is stored:
    whenever the session is authenticated, the storage holds a token
    item. *)
Theorem identity_held_implies_token_stored (st : Session) :
  reachable_atomic st ->
  admin st <> None ->
  getItem "admin_token" (localStorage st) <> None.
Proof.
  induction 1 as [stored | st st' _ IH Hstep]; [intros H; now elim H|].
  destruct Hstep as [me st | api_post e p st | st].
  - unfold initAuth. destruct (hasToken (localStorage st)) eqn:Ht;
      [|exact IH].
    unfold validated. destruct me as [res_data | err]; simpl;
      [|intros H; now elim H].
    destruct (role res_data =? "admin")%string; simpl;
      [|intros H; now elim H].
    intros _. unfold hasToken in Ht.
    destruct (getItem "admin_token" (localStorage st)); discriminate.
  - unfold login. destruct (api_post e p) as [res_data | err]; simpl;
      [|exact IH].
    destruct (role (user res_data) =? "admin")%string; simpl; [|exact IH].
    intros _. rewrite getItem_setItem. discriminate.
  - simpl. intros H. now elim H.
Qed.

Lemma identity_held_implies_token_stored_witness :
  getItem "admin_token"
    (localStorage (initAuth (Fulfilled adminIdentity) (mount storedToken)))
  <> None.
Proof.
  apply (identity_held_implies_token_stored
           (initAuth (Fulfilled adminIdentity) (mount storedToken))).
  - eapply reachable_atomic_step;
      [apply reachable_atomic_mount | apply atomic_initAuth].
  - simpl. discriminate.
Defined.

(** X21: the startup validation always ends the loading phase, whatever
    the storage holds and however the request settles.  It ends
    authenticated exactly when a non-empty token was stored and the
    backend answered with an identity of role admin; and when no token
    (or an empty one) was stored, the outcome of the request plays no
    part and the storage is left as it was. *)
Theorem startup_outcome (stored : Storage) (me : Settled Identity) :
  loading (initAuth me (mount stored)) = false
  /\ phase (initAuth me (mount stored)) <> validating
  /\ (phase (initAuth me (mount stored)) = authenticated <->
      hasToken stored = true
      /\ exists a, me = Fulfilled a /\ role a = "admin")
  /\ (hasToken stored = false ->
      initAuth me (mount stored)
      = {| localStorage := stored; admin := None; loading := false |}).
Proof.
  unfold initAuth, mount, phase; simpl.
  destruct (hasToken stored) eqn:Ht; simpl.
  - unfold validated. destruct me as [res_data | err]; simpl.
    + destruct (String.eqb_spec (role res_data) "admin") as [E | N]; simpl.
      * repeat split; try discriminate. exists res_data. auto.
      * repeat split; try discriminate.
        intros [_ [a [H Ha]]]. injection H as <-. contradiction.
    + repeat split; try discriminate.
      intros [_ [a [H _]]]. discriminate H.
  - repeat split; try discriminate. intros [H _]. discriminate H.
Qed.

Lemma startup_outcome_witness :
  initAuth (Fulfilled adminIdentity) (mount emptyStorage)
  = {| localStorage := emptyStorage; admin := None; loading := false |}
  /\ phase (initAuth (Fulfilled adminIdentity) (mount storedToken))
     = authenticated.
Proof.
  split.
  - apply (proj2 (proj2 (proj2 (startup_outcome emptyStorage
                                  (Fulfilled adminIdentity))))).
    reflexivity.
  - apply (proj1 (proj2 (proj2 (startup_outcome storedToken
                                  (Fulfilled adminIdentity))))).
    split; [reflexivity|]. exists adminIdentity. split; reflexivity.
Defined.

(** X22: logging out through the layout ends the session for good: the
    identity and the token are gone, the location is the login page, a
    protected route redirects there once loading is over, a second
    logout changes nothing more, and a reload of the application cannot
    restore the session, however the backend would answer. *)
Theorem logout_ends_session (st : Session) :
  let out := AdminLayout.handleLogout st in
  snd out = "/login"
  /\ admin (fst out) = None
  /\ getItem "admin_token" (localStorage (fst out)) = None
  /\ (loading st = false ->
      App.ProtectedRoute (fst out) = App.Navigate "/login")
  /\ admin (logout (fst out)) = None
  /\ getItem "admin_token" (localStorage (logout (fst out))) = None
  /\ (forall me,
         phase (initAuth me (mount (localStorage (fst out))))
         = unauthenticated).
Proof.
  cbv zeta. unfold AdminLayout.handleLogout. cbn [fst snd].
  assert (T : forall s, getItem "admin_token" (localStorage (logout s))
                        = None).
  { intros s. apply getItem_removeItem. }
  split; [reflexivity|]. split; [reflexivity|]. split; [apply T|]. split.
  { intros L. unfold App.ProtectedRoute. simpl. now rewrite L. }
  split; [reflexivity|]. split; [apply T|].
  intros me. unfold initAuth.
  replace (hasToken (localStorage (mount (localStorage (logout st)))))
    with false; [reflexivity|].
  unfold hasToken. cbn [mount localStorage]. now rewrite T.
Qed.

Lemma logout_ends_session_witness :
  App.ProtectedRoute
    (fst (AdminLayout.handleLogout
            (initAuth (Fulfilled adminIdentity) (mount storedToken))))
  = App.Navigate "/login".
Proof.
  apply (proj1 (proj2 (proj2 (proj2
           (logout_ends_session
              (initAuth (Fulfilled adminIdentity) (mount storedToken))))))).
  reflexivity.
Defined.

(** X23: once an admin has logged in with a non-empty token, a reload of
    the application finds the token and, the backend confirming an admin
    identity, ends authenticated; a login whose answer carried an empty
    token does not survive a reload. *)
Theorem login_survives_reload
        (api_post : string -> string -> Settled LoginData)
        (e p : string) (st : Session) (res_data : LoginData) :
  api_post e p = Fulfilled res_data ->
  role (user res_data) = "admin" ->
  let stored := localStorage (snd (login api_post e p st)) in
  (hasToken stored = true <-> token res_data <> "")
  /\ (token res_data <> "" ->
      forall a, role a = "admin" ->
                admin (initAuth (Fulfilled a) (mount stored)) = Some a)
  /\ (token res_data = "" ->
      forall me, phase (initAuth me (mount stored)) = unauthenticated).
Proof.
  intros Hres Hrole stored. subst stored. unfold login. rewrite Hres.
  apply String.eqb_eq in Hrole. rewrite Hrole. simpl.
  assert (T : hasToken (setItem "admin_token" (token res_data)
                          (localStorage st))
              = negb (token res_data =? "")%string).
  { unfold hasToken. now rewrite getItem_setItem. }
  split; [|split].
  - rewrite T, negb_true_iff. apply String.eqb_neq.
  - intros Ht a Ha. unfold initAuth; simpl. rewrite T.
    apply String.eqb_neq in Ht. rewrite Ht. simpl.
    apply String.eqb_eq in Ha. now rewrite Ha.
  - intros Ht me. unfold initAuth; simpl. rewrite T, Ht. reflexivity.
Qed.

Lemma login_survives_reload_witness :
  admin
    (initAuth (Fulfilled adminIdentity)
       (mount
          (localStorage
             (snd (login (sampleBackend adminIdentity) "ops@trafeek.app"
                     "secret" (mount emptyStorage))))))
  = Some adminIdentity.
Proof.
  apply (proj1 (proj2 (login_survives_reload (sampleBackend adminIdentity)
                         "ops@trafeek.app" "secret" (mount emptyStorage)
                         {| token := "jwt-1"; user := adminIdentity |}
                         eq_refl eq_refl))).
  - discriminate.
  - reflexivity.
Defined.

(* ================================================================== *)
(** ** The navigation *)

Lemma filter_none {A : Type} (p : A -> bool) (l : list A) :
  (forall x, In x l -> p x = false) -> filter p l = [].
Proof.
  induction l as [|x l IH]; intros H; simpl; [reflexivity|].
  rewrite (H x (or_introl eq_refl)). apply IH.
  intros y Hy. apply H. now right.
Qed.

(** X24: the sidebar never highlights two items: for every location at
    most one navigation item is active, the location of each item
    activates that item alone, and a location that is no item's (the
    rider reports page, say) activates none. *)
Theorem one_active_nav_item (pathname : string) :
  (List.length (filter (AdminLayout.isActive pathname) AdminLayout.navItems)
   <= 1)%nat
  /\ (forall item,
         In item AdminLayout.navItems ->
         filter (AdminLayout.isActive (AdminLayout.to item))
                AdminLayout.navItems = [item])
  /\ (~ In pathname (map AdminLayout.to AdminLayout.navItems) ->
      filter (AdminLayout.isActive pathname) AdminLayout.navItems = []).
Proof.
  split; [|split].
  - unfold AdminLayout.navItems, AdminLayout.isActive. simpl.
    destruct (String.eqb_spec pathname "/") as [-> | _]; [simpl; lia|].
    destruct (String.eqb_spec pathname "/analytics") as [-> | _];
      [simpl; lia|].
    destruct (String.eqb_spec pathname "/users") as [-> | _]; [simpl; lia|].
    destruct (String.eqb_spec pathname "/reports") as [-> | _];
      [simpl; lia|].
    destruct (pathname =? "/rider-performance")%string; simpl; lia.
  - intros item [<- | [<- | [<- | [<- | [<- | []]]]]]; reflexivity.
  - intros Hn. apply filter_none. intros item Hitem.
    unfold AdminLayout.isActive. apply String.eqb_neq. intros ->.
    apply Hn. now apply in_map.
Qed.

Lemma one_active_nav_item_witness :
  filter (AdminLayout.isActive "/rider-reports") AdminLayout.navItems = []
  /\ map AdminLayout.label
       (filter (AdminLayout.isActive "/users") AdminLayout.navItems)
     = ["Users"].
Proof.
  split; [|reflexivity].
  apply (proj2 (proj2 (one_active_nav_item "/rider-reports"))).
  simpl. intros [H | [H | [H | [H | [H | []]]]]]; discriminate H.
Defined.
